(** * Ultra Premium Commerce API: product catalogue over a document store

    A shallow embedding of [schemas.py] (the pydantic models [Variant] and
    [Product]) and of [main.py] (the FastAPI handlers for the schema, the
    products and the demo seed), with the statements of the specification
    that concern them. *)

From Stdlib Require Import ZArith Lia Ascii String Floats.SpecFloat.
From stdpp Require Import base option list strings gmap fin_maps.

Local Open Scope string_scope.
Set Warnings "-register-all".

(** ** JSON values and Python floats *)

(** A Python [float] is an IEEE 754 double: a signed zero, a finite
    number [m * 2^e] with a 53-bit mantissa, an infinity or NaN, all of
    which [json.loads] can produce. *)
Definition float : Type := spec_float.

(** [float(z)] of an integer: the nearest double, ties to even; an integer
    beyond the range of the doubles gives an infinity here, where Python
    raises [OverflowError]. *)
Definition float_of_int (z : Z) : float := binary_normalize 53 1024 z 0 false.

Definition is_finite (x : float) : bool :=
  match x with
  | S754_zero _ | S754_finite _ _ _ => true
  | S754_infinity _ | S754_nan => false
  end.


(** [a < b] on floats: false when either is NaN. *)
Definition float_lt (a b : float) : bool := SFltb a b.

(** What [json.loads] produces, and what a stored document holds.  An
    object nested in a value keeps its members as an ordered list of pairs;
    the keys of a Python [dict] are distinct. *)
Inductive value : Type :=
| VNone
| VBool (b : bool)
| VInt (z : Z)
| VFloat (x : float)
| VStr (s : string)
| VList (l : list value)
| VDict (kvs : list (string * value)).

(** [d.get(k)] on the members of a nested object. *)
Fixpoint assoc {A : Type} (k : string) (kvs : list (string * A)) : option A :=
  match kvs with
  | [] => None
  | (k', a) :: rest => if decide (k' = k) then Some a else assoc k rest
  end.

(** ** pydantic validation errors *)

Inductive loc_item : Type :=
| LKey (k : string)
| LIdx (i : nat).

Inductive error_type : Type :=
| missing
| string_type
| float_type
| int_type
| bool_type
| list_type
| dict_type
| model_type
| greater_than_equal (bound : Z)
| less_than_equal (bound : Z).

(** One line of a pydantic [ValidationError]: where, and which rule. *)
Record ErrorDetails : Type := { loc : list loc_item; type : error_type }.

Definition error_here (t : error_type) : ErrorDetails := {| loc := []; type := t |}.

Definition under (i : loc_item) (e : ErrorDetails) : ErrorDetails :=
  {| loc := i :: loc e; type := type e |}.

(** The outcome of validating one value: pydantic collects the errors of all
    the parts of a model before it raises. *)
Inductive validated (A : Type) : Type :=
| Valid (a : A)
| Invalid (errors : list ErrorDetails).
Arguments Valid {A} a.
Arguments Invalid {A} errors.

Definition errors_of {A : Type} (r : validated A) : list ErrorDetails :=
  match r with Valid _ => [] | Invalid es => es end.

Definition vmap {A B : Type} (f : A → B) (r : validated A) : validated B :=
  match r with Valid a => Valid (f a) | Invalid es => Invalid es end.

(** Both sides are validated; the errors of both are kept, in order. *)
Definition vap {A B : Type} (f : validated (A → B)) (r : validated A) : validated B :=
  match f, r with
  | Valid g, Valid a => Valid (g a)
  | Valid _, Invalid es => Invalid es
  | Invalid es, Valid _ => Invalid es
  | Invalid es1, Invalid es2 => Invalid (es1 ++ es2)
  end.

Notation "f <*> r" := (vap f r) (at level 61, left associativity).

Definition at_loc {A : Type} (i : loc_item) (r : validated A) : validated A :=
  match r with Valid a => Valid a | Invalid es => Invalid (under i <$> es) end.

(** ** Type annotations of the schema *)

Record Variant : Type := { name : string; options : list string }.

Inductive py_type : Type :=
| TStr
| TFloat
| TInt
| TBool
| TOptional (t : py_type)
| TList (t : py_type)
| TDict (t : py_type)
| TVariant.

(** The Python values of an annotation. *)
Fixpoint denote (t : py_type) : Type :=
  match t with
  | TStr => string
  | TFloat => float
  | TInt => Z
  | TBool => bool
  | TOptional t' => option (denote t')
  | TList t' => list (denote t')
  | TDict t' => list (string * denote t')
  | TVariant => Variant
  end.

(** pydantic validates in lax mode: besides the JSON type of an annotation
    it coerces some values of other types (numeric strings, booleans as
    numbers, ...).  What it coerces is the library's business and is left
    open here; the program only fixes the annotations and the bounds. *)
Class LaxMode : Type := {
  lax_float : value → option float;
  lax_int : value → option Z;
  lax_bool : value → option bool
}.

Section Validation.
Context `{LaxMode}.

Definition as_str (v : value) : option string :=
  match v with VStr s => Some s | _ => None end.

(** An integer is taken for a float field when it converts to a double,
    and is converted. *)
Definition as_float (v : value) : option float :=
  match v with
  | VFloat x => Some x
  | VInt z => if is_finite (float_of_int z) then Some (float_of_int z) else None
  | _ => lax_float v
  end.

Definition as_int (v : value) : option Z :=
  match v with VInt z => Some z | _ => lax_int v end.

Definition as_bool (v : value) : option bool :=
  match v with VBool b => Some b | _ => lax_bool v end.

(** One bound of [Field(ge=..., le=...)]: no error when there is no bound
    or the value keeps it. *)
Definition bound_errors (keeps : Z → bool) (rule : Z → error_type)
    (bound : option Z) : list ErrorDetails :=
  match bound with
  | Some b => if keeps b then [] else [error_here (rule b)]
  | None => []
  end.

(** The bounds of a field on a value, given how the value compares with an
    integer bound: [le] is checked first, then [ge], and the first bound
    that is broken is the error. *)
Definition check_bounds {A : Type} (at_least at_most : Z → bool)
    (ge le : option Z) (a : A) : validated A :=
  match bound_errors at_most less_than_equal le with
  | [] =>
      match bound_errors at_least greater_than_equal ge with
      | [] => Valid a
      | es => Invalid es
      end
  | es => Invalid es
  end.

(** pydantic reports [ge] as broken when the value compares below the
    bound and [le] when it compares above: a NaN, which compares with
    nothing, keeps both. *)
Definition float_at_least (x : float) (b : Z) : bool :=
  negb (float_lt x (float_of_int b)).
Definition float_at_most (x : float) (c : Z) : bool :=
  negb (float_lt (float_of_int c) x).
Definition int_at_least (z b : Z) : bool := (b <=? z)%Z.
Definition int_at_most (z c : Z) : bool := (z <=? c)%Z.

Definition validate_str (v : value) : validated string :=
  match as_str v with
  | Some s => Valid s
  | None => Invalid [error_here string_type]
  end.

Definition validate_float (ge le : option Z) (v : value) : validated float :=
  match as_float v with
  | Some x => check_bounds (float_at_least x) (float_at_most x) ge le x
  | None => Invalid [error_here float_type]
  end.

Definition validate_int (ge le : option Z) (v : value) : validated Z :=
  match as_int v with
  | Some z => check_bounds (int_at_least z) (int_at_most z) ge le z
  | None => Invalid [error_here int_type]
  end.

Definition validate_bool (v : value) : validated bool :=
  match as_bool v with
  | Some b => Valid b
  | None => Invalid [error_here bool_type]
  end.

(** The items of a list, each error under the index of its item. *)
Fixpoint validate_items {A : Type} (item : value → validated A) (i : nat)
    (l : list value) : validated (list A) :=
  match l with
  | [] => Valid []
  | v :: rest =>
      Valid cons <*> at_loc (LIdx i) (item v) <*> validate_items item (S i) rest
  end.

Definition validate_list {A : Type} (item : value → validated A) (v : value)
    : validated (list A) :=
  match v with
  | VList l => validate_items item 0 l
  | _ => Invalid [error_here list_type]
  end.

(** The members of a [Dict[str, ...]], each error under its key. *)
Fixpoint validate_members {A : Type} (item : value → validated A)
    (kvs : list (string * value)) : validated (list (string * A)) :=
  match kvs with
  | [] => Valid []
  | (k, v) :: rest =>
      Valid cons <*> vmap (pair k) (at_loc (LKey k) (item v))
                 <*> validate_members item rest
  end.

Definition validate_dict {A : Type} (item : value → validated A) (v : value)
    : validated (list (string * A)) :=
  match v with
  | VDict kvs => validate_members item kvs
  | _ => Invalid [error_here dict_type]
  end.

(** [class Variant(BaseModel)]: [name] is required, [options] defaults to
    the empty list. *)
Definition validate_Variant (v : value) : validated Variant :=
  match v with
  | VDict kvs =>
      Valid Build_Variant
        <*> match assoc "name" kvs with
            | Some x => at_loc (LKey "name") (validate_str x)
            | None => Invalid [under (LKey "name") (error_here missing)]
            end
        <*> match assoc "options" kvs with
            | Some x => at_loc (LKey "options") (validate_list validate_str x)
            | None => Valid []
            end
  | _ => Invalid [error_here model_type]
  end.

(** A value against an annotation.  The bounds of a field constrain its
    number, also when the annotation is [Optional]; they do not reach into
    a list or a dict. *)
Fixpoint validate_type (t : py_type) (ge le : option Z) : value → validated (denote t) :=
  match t return value → validated (denote t) with
  | TStr => validate_str
  | TFloat => validate_float ge le
  | TInt => validate_int ge le
  | TBool => validate_bool
  | TOptional t' => fun v =>
      match v with
      | VNone => Valid None
      | _ => vmap Some (validate_type t' ge le v)
      end
  | TList t' => validate_list (validate_type t' None None)
  | TDict t' => validate_dict (validate_type t' None None)
  | TVariant => validate_Variant
  end.

End Validation.

(** ** [schemas.py]: the Product model *)

(** The attributes of [class Product], in the order of the class body. *)
Inductive field : Type :=
| f_title
| f_slug
| f_description
| f_price
| f_compare_at_price
| f_category
| f_images
| f_model_url
| f_variants
| f_badges
| f_rating
| f_review_count
| f_in_stock
| f_specs.

Definition all_fields : list field :=
  [f_title; f_slug; f_description; f_price; f_compare_at_price; f_category;
   f_images; f_model_url; f_variants; f_badges; f_rating; f_review_count;
   f_in_stock; f_specs].

Definition field_name (f : field) : string :=
  match f with
  | f_title => "title"
  | f_slug => "slug"
  | f_description => "description"
  | f_price => "price"
  | f_compare_at_price => "compare_at_price"
  | f_category => "category"
  | f_images => "images"
  | f_model_url => "model_url"
  | f_variants => "variants"
  | f_badges => "badges"
  | f_rating => "rating"
  | f_review_count => "review_count"
  | f_in_stock => "in_stock"
  | f_specs => "specs"
  end.

(** The first argument of [Field]: [...] (required), a default, or a
    [default_factory] (given by the value it builds). *)
Inductive default_of (A : Type) : Type :=
| required
| default_value (a : A)
| default_factory (a : A).
Arguments required {A}.
Arguments default_value {A} a.
Arguments default_factory {A} a.

Module Field.
Record info : Type := {
  annotation : py_type;
  default : default_of (denote annotation);
  ge : option Z;
  le : option Z;
  description : string
}.
End Field.

(** [Product.model_fields]: one line of the class body per field. *)
Definition model_fields (f : field) : Field.info :=
  match f with
  | f_title =>
      Field.Build_info TStr required None None "Product title"
  | f_slug =>
      Field.Build_info TStr required None None "URL-friendly identifier"
  | f_description =>
      Field.Build_info (TOptional TStr) (default_value None) None None
        "Product description"
  | f_price =>
      Field.Build_info TFloat required (Some 0%Z) None "Price in dollars"
  | f_compare_at_price =>
      Field.Build_info (TOptional TFloat) (default_value None) (Some 0%Z) None
        "Original price for comparison"
  | f_category =>
      Field.Build_info TStr required None None "Product category"
  | f_images =>
      Field.Build_info (TList TStr) (default_factory []) None None "Image URLs"
  | f_model_url =>
      Field.Build_info (TOptional TStr) (default_value None) None None
        "3D model or Spline scene URL"
  | f_variants =>
      Field.Build_info (TList TVariant) (default_factory []) None None
        "Variant groups"
  | f_badges =>
      Field.Build_info (TList TStr) (default_factory []) None None
        "Trust or feature badges"
  | f_rating =>
      Field.Build_info TFloat (default_value (float_of_int 5)) (Some 0%Z)
        (Some 5%Z) "Average rating"
  | f_review_count =>
      Field.Build_info TInt (default_value 0%Z) (Some 0%Z) None
        "Number of reviews"
  | f_in_stock =>
      Field.Build_info TBool (default_value true) None None
        "Whether product is in stock"
  | f_specs =>
      Field.Build_info (TDict TStr) (default_factory []) None None
        "Key-value specs"
  end.

(** The Python type of a field of the model. *)
Definition field_type (f : field) : Type := denote (Field.annotation (model_fields f)).

Record Product : Type := {
  title : field_type f_title;
  slug : field_type f_slug;
  description : field_type f_description;
  price : field_type f_price;
  compare_at_price : field_type f_compare_at_price;
  category : field_type f_category;
  images : field_type f_images;
  model_url : field_type f_model_url;
  variants : field_type f_variants;
  badges : field_type f_badges;
  rating : field_type f_rating;
  review_count : field_type f_review_count;
  in_stock : field_type f_in_stock;
  specs : field_type f_specs
}.

(** [getattr(p, f)]. *)
Definition get_field (f : field) : Product → field_type f :=
  match f return Product → field_type f with
  | f_title => title
  | f_slug => slug
  | f_description => description
  | f_price => price
  | f_compare_at_price => compare_at_price
  | f_category => category
  | f_images => images
  | f_model_url => model_url
  | f_variants => variants
  | f_badges => badges
  | f_rating => rating
  | f_review_count => review_count
  | f_in_stock => in_stock
  | f_specs => specs
  end.

(** A raw record: the members of the JSON object of a request body. *)
Abbreviation raw_record := (gmap string value).

Section ProductValidation.
Context `{LaxMode}.

(** One field of a raw record: absent, the default stands in (or the field
    is reported missing); present, its value is validated. *)
Definition validate_field (f : field) (raw : raw_record) : validated (field_type f) :=
  let fi := model_fields f in
  match raw !! field_name f with
  | Some v =>
      at_loc (LKey (field_name f))
        (validate_type (Field.annotation fi) (Field.ge fi) (Field.le fi) v)
  | None =>
      match Field.default fi with
      | required => Invalid [under (LKey (field_name f)) (error_here missing)]
      | default_value a => Valid a
      | default_factory a => Valid a
      end
  end.

(** [Product.model_validate]: every field is validated, and the errors of
    all of them are reported together.  Members of the raw record that are
    no field of the model are ignored. *)
Definition validate_Product (raw : raw_record) : validated Product :=
  Valid Build_Product
    <*> validate_field f_title raw
    <*> validate_field f_slug raw
    <*> validate_field f_description raw
    <*> validate_field f_price raw
    <*> validate_field f_compare_at_price raw
    <*> validate_field f_category raw
    <*> validate_field f_images raw
    <*> validate_field f_model_url raw
    <*> validate_field f_variants raw
    <*> validate_field f_badges raw
    <*> validate_field f_rating raw
    <*> validate_field f_review_count raw
    <*> validate_field f_in_stock raw
    <*> validate_field f_specs raw.

End ProductValidation.

(** ** Serialisation: [model_dump] *)

Definition dump_Variant (v : Variant) : value :=
  VDict [("name", VStr (name v)); ("options", VList (VStr <$> options v))].

Fixpoint dump_type (t : py_type) : denote t → value :=
  match t return denote t → value with
  | TStr => VStr
  | TFloat => VFloat
  | TInt => VInt
  | TBool => VBool
  | TOptional t' => fun o =>
      match o with Some a => dump_type t' a | None => VNone end
  | TList t' => fun l => VList (dump_type t' <$> l)
  | TDict t' => fun kvs => VDict (prod_map id (dump_type t') <$> kvs)
  | TVariant => dump_Variant
  end.

Definition dump_field (p : Product) (f : field) : string * value :=
  (field_name f, dump_type (Field.annotation (model_fields f)) (get_field f p)).

(** [p.model_dump()]: a dict with one member per field. *)
Definition model_dump (p : Product) : raw_record :=
  list_to_map (dump_field p <$> all_fields).

(** ** The document store *)

(** A MongoDB [ObjectId] is twelve bytes, a number below [2^96]; [str]
    writes it as 24 hexadecimal digits. *)
Definition ObjectId : Type := N.

Definition hex_digit (n : N) : ascii :=
  match n with
  | 0%N => "0" | 1%N => "1" | 2%N => "2" | 3%N => "3"
  | 4%N => "4" | 5%N => "5" | 6%N => "6" | 7%N => "7"
  | 8%N => "8" | 9%N => "9" | 10%N => "a" | 11%N => "b"
  | 12%N => "c" | 13%N => "d" | 14%N => "e" | _ => "f"
  end%char.

Fixpoint hex_digits (width : nat) (n : N) (acc : string) : string :=
  match width with
  | O => acc
  | S w => hex_digits w (n / 16)%N (String (hex_digit (n mod 16)%N) acc)
  end.

Definition str_ObjectId (o : ObjectId) : string := hex_digits 24 o "".

(** A document as a handler holds it: a Python dict.  The member ["_id"]
    is the only one whose value is an [ObjectId] and is kept apart from the
    JSON members. *)
Record document : Type := { _id : option ObjectId; body : raw_record }.

(** [bool(d)] of a dict: it has a member. *)
Definition dict_truthy (d : document) : bool :=
  match _id d with
  | Some _ => true
  | None => negb (bool_decide (dom (body d) = ∅))
  end.

(** A document in a collection: the store gives every document an ["_id"]. *)
Record stored : Type := { oid : ObjectId; members : raw_record }.

Definition decode (s : stored) : document :=
  {| _id := Some (oid s); body := members s |}.

(** The database of the module-level handle [db]: its collections in
    natural (insertion) order, and the next identifier the store assigns. *)
Record Database : Type := {
  collections : gmap string (list stored);
  next_id : ObjectId
}.

(** [db[name]]: a collection that was never written to is empty. *)
Definition collection (d : Database) (name : string) : list stored :=
  default [] (collections d !! name).

(** A filter document whose members all compare a field with a text, as
    [{}] and [{"slug": slug}] do. *)
Definition query : Type := list (string * string).

(** MongoDB's equality match: the field is the text, or an array that
    holds it. *)
Definition matches_text (v : value) (s : string) : bool :=
  match v with
  | VStr s' => bool_decide (s' = s)
  | VList l =>
      existsb (fun x => match x with VStr s' => bool_decide (s' = s) | _ => false end) l
  | _ => false
  end.

Definition matches (q : query) (s : stored) : bool :=
  forallb (fun '(k, t) =>
             match members s !! k with
             | Some v => matches_text v t
             | None => false
             end) q.

(** The filter [{"slug": slug}]. *)
Definition by_slug (slug : string) : query := [("slug", slug)].

Definition find (d : Database) (name : string) (q : query) : list document :=
  decode <$> filter (fun s => matches q s = true) (collection d name).

(** What the program does not decide about the store: whether the backend
    fails an insertion, and where in its natural order the store places a
    new document (no order is guaranteed). *)
Class Backend : Type := {
  fails : Database → string → raw_record → bool;
  position : Database → string → raw_record → nat
}.

(** BSON holds an integer in 8 bytes at most. *)
Definition int64 (z : Z) : bool := (- 2 ^ 63 <=? z)%Z && (z <? 2 ^ 63)%Z.

Fixpoint bson_value (v : value) : bool :=
  match v with
  | VInt z => int64 z
  | VList l => forallb bson_value l
  | VDict kvs => forallb (fun kv => bson_value kv.2) kvs
  | _ => true
  end.

(** The document can be encoded for the store. *)
Definition bson_encodable (doc : raw_record) : bool :=
  forallb (fun kv => bson_value kv.2) (map_to_list doc).

(** The store takes the document: it can be encoded and the backend does
    not fail. *)
Definition accepts `{Backend} (d : Database) (name : string) (doc : raw_record) : bool :=
  bson_encodable doc && negb (fails d name doc).

Definition insert_at {A : Type} (k : nat) (x : A) (l : list A) : list A :=
  (take k l ++ x :: drop k l)%list.

(** [insert_one] of a dict that has no ["_id"], on a store that takes it:
    the store assigns an identifier and places the document. *)
Definition insert_one `{Backend} (d : Database) (name : string) (doc : raw_record)
    : ObjectId * Database :=
  let o := next_id d in
  (o, {| collections :=
           <[name := insert_at (position d name doc) {| oid := o; members := doc |}
                       (collection d name)]> (collections d);
         next_id := N.succ o |}).

(** ** Handlers: the state is the handle [db], [None] when the process has
    no connection; a handler returns or raises. *)

Inductive exception : Type :=
| HTTPException (status_code : Z) (detail : string)
| RequestValidationError (errors : list ErrorDetails)
| TypeError
| KeyError (key : string)
| NotImplementedError
| StorageUnavailable
| StorageError.

Inductive outcome (A : Type) : Type :=
| Return (a : A)
| Raise (e : exception).
Arguments Return {A} a.
Arguments Raise {A} e.

Definition handler (A : Type) : Type :=
  option Database → outcome A * option Database.

#[export] Instance handler_ret : MRet handler :=
  fun A a db => (Return a, db).

#[export] Instance handler_bind : MBind handler :=
  fun A B f m db =>
    match m db with
    | (Return a, db') => f a db'
    | (Raise e, db') => (Raise e, db')
    end.

Definition raise {A : Type} (e : exception) : handler A :=
  fun db => (Raise e, db).

(** [db[name].find_one(q)]: subscripting the handle [None] is a
    [TypeError]. *)
Definition find_one (name : string) (q : query) : handler (option document) :=
  fun db =>
    match db with
    | Some d => (Return (head (find d name q)), db)
    | None => (Raise TypeError, db)
    end.

(** What [get_documents] does with a limit that is zero or negative is up
    to whoever implements it: how many documents it then returns at most
    ([None]: all of them). *)
Class LimitPolicy : Type := { nonpositive_limit : Z → option nat }.

Definition apply_limit `{LimitPolicy} (limit : Z) (docs : list document) : list document :=
  if (0 <? limit)%Z then take (Z.to_nat limit) docs
  else match nonpositive_limit limit with
       | Some k => take k docs
       | None => docs
       end.

(** Modelled from the spec: [database.get_documents], which is not part
    of the sources.  It returns up to [limit] matching records in the
    natural order of the store, must not crash on a limit that is zero or
    negative, and answers [StorageUnavailable] without a live connection. *)
Definition get_documents `{LimitPolicy} (name : string) (q : query) (limit : Z)
    : handler (list document) :=
  fun db =>
    match db with
    | Some d => (Return (apply_limit limit (find d name q)), db)
    | None => (Raise StorageUnavailable, db)
    end.

(** Modelled from the spec: [database.create_document], which is not part
    of the sources.  It inserts the record and returns the identifier the
    store assigned, as text; without a live connection it fails with
    [StorageUnavailable], and with [StorageError] for any other failure of
    the backend, which leaves the store as it is. *)
Definition create_document `{Backend} (name : string) (data : Product) : handler string :=
  fun db =>
    match db with
    | Some d =>
        if accepts d name (model_dump data) then
          let '(o, d') := insert_one d name (model_dump data) in
          (Return (str_ObjectId o), Some d')
        else (Raise StorageError, db)
    | None => (Raise StorageUnavailable, db)
    end.

(** ** [main.py]: the schema endpoint *)

(** [name.title()] with the underscores turned into spaces, the title
    pydantic gives a property. *)
Definition is_lower (c : ascii) : bool :=
  let n := nat_of_ascii c in (97 <=? n)%nat && (n <=? 122)%nat.

Definition is_upper (c : ascii) : bool :=
  let n := nat_of_ascii c in (65 <=? n)%nat && (n <=? 90)%nat.

Definition upper (c : ascii) : ascii :=
  if is_lower c then ascii_of_nat (nat_of_ascii c - 32) else c.

Definition lower (c : ascii) : ascii :=
  if is_upper c then ascii_of_nat (nat_of_ascii c + 32) else c.

Fixpoint title_from (in_word : bool) (s : string) : string :=
  match s with
  | EmptyString => EmptyString
  | String c rest =>
      if is_lower c || is_upper c
      then String (if in_word then lower c else upper c) (title_from true rest)
      else String (if Ascii.eqb c "_" then " "%char else c) (title_from false rest)
  end.

Definition property_title (s : string) : string := title_from false s.

Definition bound_members (ge le : option Z) : list (string * value) :=
  (match le with Some c => [("maximum", VInt c)] | None => [] end ++
   match ge with Some b => [("minimum", VInt b)] | None => [] end)%list.

(** The JSON Schema of an annotation with the bounds of its field.  The
    generator sorts the keys of a schema; [before] holds those that come
    before ["default"] and ["description"], [between] those up to
    ["title"], and ["type"] is last. *)
Record schema_members : Type := {
  before : list (string * value);
  between : list (string * value);
  type_name : option string
}.

Definition type_member (s : schema_members) : list (string * value) :=
  match type_name s with Some n => [("type", VStr n)] | None => [] end.

Definition members_of (s : schema_members) : list (string * value) :=
  (before s ++ between s ++ type_member s)%list.

Fixpoint type_schema (t : py_type) (ge le : option Z) : schema_members :=
  match t with
  | TStr => {| before := []; between := []; type_name := Some "string" |}
  | TFloat =>
      {| before := []; between := bound_members ge le; type_name := Some "number" |}
  | TInt =>
      {| before := []; between := bound_members ge le; type_name := Some "integer" |}
  | TBool => {| before := []; between := []; type_name := Some "boolean" |}
  | TOptional t' =>
      {| before :=
           [("anyOf", VList [VDict (members_of (type_schema t' ge le));
                             VDict [("type", VStr "null")]])];
         between := []; type_name := None |}
  | TList t' =>
      {| before := [];
         between := [("items", VDict (members_of (type_schema t' None None)))];
         type_name := Some "array" |}
  | TDict t' =>
      {| before :=
           [("additionalProperties", VDict (members_of (type_schema t' None None)))];
         between := []; type_name := Some "object" |}
  | TVariant =>
      {| before := [("$ref", VStr "#/$defs/Variant")]; between := [];
         type_name := None |}
  end.

Definition default_member {t : py_type} (d : default_of (denote t)) : list (string * value) :=
  match d with
  | default_value a => [("default", dump_type t a)]
  | required | default_factory _ => []
  end.

Definition is_required {A : Type} (d : default_of A) : bool :=
  match d with required => true | _ => false end.

(** One entry of ["properties"]. *)
Definition property_schema (f : field) : string * value :=
  let fi := model_fields f in
  let s := type_schema (Field.annotation fi) (Field.ge fi) (Field.le fi) in
  (field_name f,
   VDict (before s ++
          default_member (Field.default fi) ++
          [("description", VStr (Field.description fi))] ++
          between s ++
          [("title", VStr (property_title (field_name f)))] ++
          type_member s)%list).

Definition Variant_json_schema : value :=
  VDict
    [("properties",
      VDict
        [("name",
          VDict [("description", VStr "Variant name, e.g., Color or Size");
                 ("title", VStr "Name"); ("type", VStr "string")]);
         ("options",
          VDict [("description", VStr "Available options");
                 ("items", VDict [("type", VStr "string")]);
                 ("title", VStr "Options"); ("type", VStr "array")])]);
     ("required", VList [VStr "name"]);
     ("title", VStr "Variant");
     ("type", VStr "object")].

(** The docstring of [class Product], as [inspect.cleandoc] leaves it. *)
Definition Product_doc : string :=
  "Products collection schema" +:+ String "010"
    ("Collection name: " +:+ String "034"
       ("product" +:+ String "034" " (lowercase of class name)")).

(** [Product.model_json_schema()]: the properties are the fields of the
    model, the required ones those that have no default. *)
Definition model_json_schema : value :=
  VDict
    [("$defs", VDict [("Variant", Variant_json_schema)]);
     ("description", VStr Product_doc);
     ("properties", VDict (property_schema <$> all_fields));
     ("required",
      VList (VStr ∘ field_name <$>
               filter (fun f => is_required (Field.default (model_fields f)) = true)
                 all_fields));
     ("title", VStr "Product");
     ("type", VStr "object")].

Definition get_schema : value :=
  VDict [("models", VDict [("product", model_json_schema)])].

(** [v[k]] on a JSON object. *)
Definition member (k : string) (v : value) : option value :=
  match v with VDict kvs => assoc k kvs | _ => None end.

(** The names a schema description declares: the keys of ["properties"]. *)
Definition declared_fields (schema : value) : option (list string) :=
  match member "properties" schema with
  | Some (VDict props) => Some (fst <$> props)
  | _ => None
  end.

(** The fields that the answer of [/schema] declares for the product
    entity: [get_schema()["models"]["product"]["properties"]]. *)
Definition product_fields_of_schema : option (list string) :=
  match member "models" get_schema with
  | Some models =>
      match member "product" models with
      | Some schema => declared_fields schema
      | None => None
      end
  | None => None
  end.

(** ** [main.py]: the product endpoints *)

Definition product_collection : string := "product".

(** [if "_id" in d: d["id"] = str(d.pop("_id"))]. *)
Definition normalize (d : document) : document :=
  match _id d with
  | Some o => {| _id := None; body := <["id" := VStr (str_ObjectId o)]> (body d) |}
  | None => d
  end.

(** The query parameter [limit] when the request gives none. *)
Definition default_limit : Z := 20.

Definition list_products `{LimitPolicy} (limit : Z) : handler (list document) :=
  docs ← get_documents product_collection [] limit;
  mret (normalize <$> docs).

Definition get_product (slug : string) : handler document :=
  doc ← find_one product_collection (by_slug slug);
  match doc with
  | Some d =>
      if dict_truthy d then
        match _id d with
        | Some o =>
            mret {| _id := None; body := <["id" := VStr (str_ObjectId o)]> (body d) |}
        | None => raise (KeyError "_id")
        end
      else raise (HTTPException 404 "Product not found")
  | None => raise (HTTPException 404 "Product not found")
  end.

(** The body of [create_product]: [payload] is a [ProductCreate], a
    validated instance of the model. *)
Definition create_product `{Backend} (payload : Product) : handler (gmap string string) :=
  exists_ ← find_one product_collection (by_slug (slug payload));
  if from_option dict_truthy false exists_
  then raise (HTTPException 400 "Slug already exists")
  else new_id ← create_document product_collection payload;
       mret {["id" := new_id]}.

(** The errors of a request body, as FastAPI reports them: each location
    under ["body"]. *)
Definition body_errors (errors : list ErrorDetails) : list ErrorDetails :=
  under (LKey "body") <$> errors.

(** [POST /api/products]: FastAPI builds the [ProductCreate] argument from
    the request body before it calls the handler, and answers 422 itself
    when the body does not validate. *)
Definition post_api_products `{LaxMode} `{Backend} (body : raw_record)
    : handler (gmap string string) :=
  match validate_Product body with
  | Valid payload => create_product payload
  | Invalid errors => raise (RequestValidationError (body_errors errors))
  end.

(** ** [main.py]: the demo seed *)

(** The double of a short decimal literal such as [4.9], written as the
    quotient of two integers that are doubles exactly: the division rounds
    to the nearest double, as reading the literal does. *)
Definition decimal (num : Z) (den : positive) : float :=
  SFdiv 53 1024 (float_of_int num) (float_of_int (Zpos den)).

Definition demo : list Product :=
  [ {| title := "Specter Series X1";
       slug := "specter-series-x1";
       description := Some "Monolithic precision. Forged for power.";
       price := float_of_int 1299;
       compare_at_price := Some (float_of_int 1499);
       category := "hardware";
       images :=
         ["https://images.unsplash.com/photo-1527443154391-507e9dc6c5cc?q=80&w=1600&auto=format&fit=crop";
          "https://images.unsplash.com/photo-1542751371-adc38448a05e?q=80&w=1600&auto=format&fit=crop"];
       model_url := Some "https://prod.spline.design/8J9sS3L8q1sV9t8A/scene.splinecode";
       variants :=
         [ {| name := "Finish"; options := ["Obsidian Black"; "Liquid Silver"] |};
           {| name := "Capacity"; options := ["256GB"; "512GB"; "1TB"] |} ];
       badges := ["2-Year Warranty"; "Free Express Shipping"; "30-Day Returns"];
       rating := decimal 49 10;
       review_count := 312%Z;
       in_stock := true;
       specs := [("CPU", "NeonCore M3"); ("GPU", "RayFlux 8G"); ("Weight", "1.2kg")] |};
    {| title := "Nebula Pro V";
       slug := "nebula-pro-v";
       description := Some "Zero compromise. Ultra light.";
       price := float_of_int 999;
       compare_at_price := Some (float_of_int 1199);
       category := "hardware";
       images :=
         ["https://images.unsplash.com/photo-1555617981-dac3880d511d?q=80&w=1600&auto=format&fit=crop";
          "https://images.unsplash.com/photo-1517336714731-489689fd1ca8?q=80&w=1600&auto=format&fit=crop"];
       model_url := Some "https://prod.spline.design/G8j2l6m1y7X2m6xD/scene.splinecode";
       variants :=
         [ {| name := "Finish"; options := ["Chrome"; "Graphite"] |};
           {| name := "Capacity"; options := ["128GB"; "256GB"; "512GB"] |} ];
       badges := ["Premium Support"; "Insured Delivery"];
       rating := decimal 48 10;
       review_count := 198%Z;
       in_stock := true;
       specs := [("CPU", "IonDrive X"); ("Display", "120Hz OLED"); ("Weight", "0.98kg")] |} ].

(** [bool(db)]: [None] is false, and a pymongo [Database] does not
    implement truth value testing: it raises [NotImplementedError]. *)
Definition handle_truthy : handler bool :=
  fun db =>
    match db with
    | Some _ => (Raise NotImplementedError, db)
    | None => (Return false, db)
    end.

(** [db[product_collection()].count_documents({})]. *)
Definition count_documents : handler Z :=
  fun db =>
    match db with
    | Some d => (Return (Z.of_nat (length (collection d product_collection))), db)
    | None => (Raise TypeError, db)
    end.

(** [db[product_collection()].count_documents({}) if db else 0]. *)
Definition count_products : handler Z :=
  truthy ← handle_truthy;
  if truthy : bool then count_documents else mret 0%Z.

(** [for p in demo: create_document(product_collection(), p)]. *)
Fixpoint create_all `{Backend} (ps : list Product) : handler unit :=
  match ps with
  | [] => mret tt
  | p :: rest => _ ← create_document product_collection p; create_all rest
  end.

Definition already_present : gmap string string :=
  {["status" := "ok"; "message" := "Products already present"]}.

Definition seeded : gmap string string :=
  {["status" := "ok"; "message" := "Seeded demo products"]}.

(** The part of [seed_demo_products] after the early return. *)
Definition seed_insert `{Backend} : handler (gmap string string) :=
  _ ← create_all demo;
  mret seeded.

Definition seed_demo_products `{Backend} : handler (gmap string string) :=
  count ← count_products;
  if (0 <? count)%Z then mret already_present else seed_insert.

(** ** What the schema declares, read as a specification *)


(** What the validation checks of a float: it compares neither below
    [ge] nor above [le]. *)
Definition float_keeps_bounds (ge le : option Z) (x : float) : Prop :=
  match ge with Some b => float_lt x (float_of_int b) = false | None => True end ∧
  match le with Some c => float_lt (float_of_int c) x = false | None => True end.

Definition int_in_bounds (ge le : option Z) (z : Z) : Prop :=
  match ge with Some b => (b ≤ z)%Z | None => True end ∧
  match le with Some c => (z ≤ c)%Z | None => True end.

Definition is_text (v : value) : Prop := ∃ s, v = VStr s.






Section Declared.
Context `{LaxMode}.

(** What validation takes for a value of the type, the coercions of the
    lax mode included. *)
Fixpoint well_typed (t : py_type) (ge le : option Z) (v : value) : Prop :=
  match t with
  | TStr => is_text v
  | TFloat => ∃ x, as_float v = Some x ∧ float_keeps_bounds ge le x
  | TInt => ∃ z, as_int v = Some z ∧ int_in_bounds ge le z
  | TBool => ∃ b, as_bool v = Some b
  | TOptional t' => v = VNone ∨ well_typed t' ge le v
  | TList t' => ∃ l, v = VList l ∧ Forall (well_typed t' None None) l
  | TDict t' =>
      ∃ kvs, v = VDict kvs ∧ Forall (fun kv => well_typed t' None None kv.2) kvs
  | TVariant =>
      ∃ kvs, v = VDict kvs ∧
        (∃ x, assoc "name" kvs = Some x ∧ is_text x) ∧
        (∀ x, assoc "options" kvs = Some x → ∃ l, x = VList l ∧ Forall is_text l)
  end.

(** What validation takes for a field of a raw record. *)
Definition satisfies (f : field) (raw : raw_record) : Prop :=
  let fi := model_fields f in
  match raw !! field_name f with
  | Some v => well_typed (Field.annotation fi) (Field.ge fi) (Field.le fi) v
  | None => Field.default fi ≠ required
  end.

End Declared.

(** An error names the field its location starts with. *)
Definition names (e : ErrorDetails) (f : field) : Prop :=
  head (loc e) = Some (LKey (field_name f)).

Definition is_valid {A : Type} (r : validated A) : Prop :=
  match r with Valid _ => True | Invalid _ => False end.

(** A [ValidationError] is never raised with an empty list of errors. *)
Definition proper {A : Type} (r : validated A) : Prop :=
  match r with Invalid [] => False | _ => True end.

(** Instances to run the model with: no coercion at all, a store that
    reads a limit of zero or less as no limit, and a backend that never
    fails and keeps the order of insertion. *)
Definition reliable : Backend :=
  {| fails := fun _ _ _ => false;
     position := fun d name _ => length (collection d name) |}.

Definition no_coercion : LaxMode :=
  {| lax_float := fun _ => None; lax_int := fun _ => None; lax_bool := fun _ => None |}.

Definition no_limit : LimitPolicy := {| nonpositive_limit := fun _ => None |}.

(** Raw records to run the validation on. *)
Definition empty_texts : raw_record :=
  {[ "title" := VStr ""; "slug" := VStr ""; "category" := VStr "";
     "price" := VInt 10 ]}.

Definition bad_numbers : raw_record :=
  {[ "title" := VStr "Lamp"; "slug" := VStr "lamp"; "category" := VStr "home";
     "price" := VInt (-1); "rating" := VInt 7; "review_count" := VInt (-3) ]}.

(** The store after one insertion per product of a list. *)
Definition insert_all `{Backend} (d : Database) (ps : list Product) : Database :=
  foldl (fun d p => (insert_one d product_collection (model_dump p)).2) d ps.

(** Stores to run the handlers on: an empty one, and one that holds the
    two demo products, in order. *)
Definition empty_db : Database := {| collections := ∅; next_id := 0%N |}.

Definition seeded_db : Database := @insert_all reliable empty_db demo.

(** The demo products as the seeded store hands them out. *)
Definition specter : document :=
  {| _id := None;
     body := <["id" := VStr (str_ObjectId 0%N)]>
               (from_option model_dump ∅ (demo !! 0%nat)) |}.

Definition nebula : document :=
  {| _id := None;
     body := <["id" := VStr (str_ObjectId 1%N)]>
               (from_option model_dump ∅ (demo !! 1%nat)) |}.

(** A record that [list_products] or [get_product] hands out from the
    state [db]. *)
Inductive returned_record `{LimitPolicy} (db : option Database) (doc : document) : Prop :=
| returned_by_list (limit : Z) (docs : list document) (db' : option Database) :
    list_products limit db = (Return docs, db') → doc ∈ docs →
    returned_record db doc
| returned_by_slug (slug : string) (db' : option Database) :
    get_product slug db = (Return doc, db') →
    returned_record db doc.

(** A request body that repeats the slug of a seeded product and breaks
    the bound of [rating]. *)
Definition duplicate_and_invalid : raw_record :=
  {[ "title" := VStr "Nebula Pro V"; "slug" := VStr "nebula-pro-v";
     "category" := VStr "hardware"; "price" := VInt 999; "rating" := VInt 7 ]}.

(** A request body for a product that the seeded store does not have,
    and the payload it validates to (the defaults filled in). *)
Definition aurora_body : raw_record :=
  {[ "title" := VStr "Aurora Mini"; "slug" := VStr "aurora-mini";
     "category" := VStr "hardware"; "price" := VFloat (decimal 4995 10);
     "badges" := VList [VStr "New"]; "review_count" := VInt 3 ]}.

Definition aurora : Product :=
  {| title := "Aurora Mini"; slug := "aurora-mini"; description := None;
     price := decimal 4995 10; compare_at_price := None; category := "hardware";
     images := []; model_url := None; variants := []; badges := ["New"];
     rating := float_of_int 5; review_count := 3%Z; in_stock := true;
     specs := [] |}.

(** A body that validates with a review count beyond 8 bytes. *)
Definition huge_count_body : raw_record :=
  <["review_count" := VInt (2 ^ 70)]> aurora_body.

(** A price too large for a double, and a rating that is no number. *)
Definition huge_price : raw_record := <["price" := VInt (10 ^ 400)]> aurora_body.

Definition nan_rating : raw_record := <["rating" := VFloat S754_nan]> aurora_body.

Definition huge_count : Product :=
  {| title := "Aurora Mini"; slug := "aurora-mini"; description := None;
     price := decimal 4995 10; compare_at_price := None; category := "hardware";
     images := []; model_url := None; variants := []; badges := ["New"];
     rating := float_of_int 5; review_count := (2 ^ 70)%Z; in_stock := true;
     specs := [] |}.

(** The bounds of a field on a value of its Python type. *)
Fixpoint value_in_bounds (t : py_type) (ge le : option Z) : denote t → Prop :=
  match t return denote t → Prop with
  | TFloat => float_keeps_bounds ge le
  | TInt => int_in_bounds ge le
  | TOptional t' => fun o =>
      match o with Some a => value_in_bounds t' ge le a | None => True end
  | _ => fun _ => True
  end.

Definition is_optional (t : py_type) : bool :=
  match t with TOptional _ => true | _ => false end.

(** No [Optional] directly inside an [Optional]: [None] is then dumped as
    [null] only. *)
Fixpoint flat_optionals (t : py_type) : bool :=
  match t with
  | TOptional t' => negb (is_optional t') && flat_optionals t'
  | TList t' | TDict t' => flat_optionals t'
  | _ => true
  end.

(** ** [schemas.py]: the User model *)

(** One attribute of a model, read from a raw record under its key: the
    value is validated when the key is there; otherwise the default stands
    in, and a required attribute is reported missing. *)
Definition validate_attribute `{LaxMode} (key : string) (t : py_type)
    (dflt : default_of (denote t)) (ge le : option Z) (raw : raw_record)
    : validated (denote t) :=
  match raw !! key with
  | Some v => at_loc (LKey key) (validate_type t ge le v)
  | None =>
      match dflt with
      | required => Invalid [under (LKey key) (error_here missing)]
      | default_value a => Valid a
      | default_factory a => Valid a
      end
  end.

Module UserModel.
Record User : Type := {
  name : string;
  email : string;
  address : string;
  age : option Z;
  is_active : bool
}.
End UserModel.

(** [User.model_validate]. *)
Definition validate_User `{LaxMode} (raw : raw_record) : validated UserModel.User :=
  Valid UserModel.Build_User
    <*> validate_attribute "name" TStr required None None raw
    <*> validate_attribute "email" TStr required None None raw
    <*> validate_attribute "address" TStr required None None raw
    <*> validate_attribute "age" (TOptional TInt) (default_value None)
          (Some 0%Z) (Some 120%Z) raw
    <*> validate_attribute "is_active" TBool (default_value true) None None raw.

(** A raw user of the age of 130 with no address. *)
Definition old_user : raw_record :=
  {[ "name" := VStr "Ada"; "email" := VStr "ada@example.org"; "age" := VInt 130 ]}.

Definition ada : raw_record :=
  {[ "name" := VStr "Ada"; "email" := VStr "ada@example.org";
     "address" := VStr "12 Mill Lane"; "age" := VInt 36 ]}.

(** ** [main.py]: the health check [/test] *)

Module Health.

(** Reading an attribute of an object: it is not there, it has a value, or
    reading it raises an exception with a message. *)
Inductive attribute (A : Type) : Type :=
| absent
| present (a : A)
| failing (message : string).
Arguments absent {A}.
Arguments present {A} a.
Arguments failing {A} message.

(** What [test_database] uses of the handle [db]: its attribute [name],
    and the answer of [list_collection_names()], the names or the message
    of the exception it raises. *)
Record handle : Type := {
  name : attribute string;
  list_collection_names : string + list string
}.

Record response : Type := {
  backend : string;
  database : string;
  database_url : option string;
  database_name : option string;
  connection_status : string;
  collections : list string
}.

End Health.

(** A Python text is held as its UTF-8 bytes: a character is a byte that
    is no continuation byte ([10xxxxxx]), with the continuation bytes that
    follow it. *)
Definition is_continuation (c : ascii) : bool :=
  let n := nat_of_ascii c in (128 <=? n)%nat && (n <? 192)%nat.

Fixpoint characters (s : string) : nat :=
  match s with
  | EmptyString => 0
  | String c rest =>
      if is_continuation c then characters rest else S (characters rest)
  end.

(** [s[:n]]: the first [n] characters. *)
Fixpoint first_characters (n : nat) (s : string) : string :=
  match s with
  | EmptyString => EmptyString
  | String c rest =>
      if is_continuation c then String c (first_characters n rest)
      else match n with
           | O => EmptyString
           | S n' => String c (first_characters n' rest)
           end
  end.

(** [str(e)[:80]]. *)
Definition first_80 (message : string) : string := first_characters 80 message.

Fixpoint repeat_text (n : nat) (s : string) : string :=
  match n with
  | O => EmptyString
  | S n' => s +:+ repeat_text n' s
  end.

(** Ninety times the letter e with an acute accent, [C3 A9] in UTF-8. *)
Definition ninety_accents : string :=
  repeat_text 90 (String (ascii_of_nat 195) (String (ascii_of_nat 169) EmptyString)).

(** [bool(os.getenv(...))]: the variable is set and not empty. *)
Definition env_truthy (v : option string) : bool :=
  match v with
  | Some s => negb (bool_decide (s = ""))
  | None => false
  end.

(** [test_database], given the value of [DATABASE_URL] in the environment
    and the handle.  The assignments made before an exception stay in the
    response. *)
Definition test_database (database_url_env : option string)
    (db : option Health.handle) : Health.response :=
  match db with
  | Some h =>
      let url := Some (if env_truthy database_url_env then "✅ Set" else "❌ Not Set") in
      match Health.name h with
      | Health.failing message =>
          {| Health.backend := "✅ Running";
             Health.database := "❌ Error: " +:+ first_80 message;
             Health.database_url := url;
             Health.database_name := None;
             Health.connection_status := "Not Connected";
             Health.collections := [] |}
      | name_read =>
          let db_name :=
            Some (match name_read with Health.present n => n | _ => "Unknown" end) in
          match Health.list_collection_names h with
          | inr names =>
              {| Health.backend := "✅ Running";
                 Health.database := "✅ Connected & Working";
                 Health.database_url := url;
                 Health.database_name := db_name;
                 Health.connection_status := "Connected";
                 Health.collections := take 10 names |}
          | inl message =>
              {| Health.backend := "✅ Running";
                 Health.database := "⚠️ Connected but Error: " +:+ first_80 message;
                 Health.database_url := url;
                 Health.database_name := db_name;
                 Health.connection_status := "Connected";
                 Health.collections := [] |}
          end
      end
  | None =>
      {| Health.backend := "✅ Running";
         Health.database := "⚠️ Available but not initialized";
         Health.database_url := None;
         Health.database_name := None;
         Health.connection_status := "Not Connected";
         Health.collections := [] |}
  end.

(** A handle whose database has twelve collections. *)
Definition twelve_collections : Health.handle :=
  {| Health.name := Health.present "shop";
     Health.list_collection_names :=
       inr ["a"; "b"; "c"; "d"; "e"; "f"; "g"; "h"; "i"; "j"; "k"; "l"] |}.

(** ** The invariant of the catalogue *)

(** No two products of the collection answer to the same slug. *)
Definition unique_slugs (d : Database) : Prop :=
  ∀ s, (length (find d product_collection (by_slug s)) ≤ 1)%nat.

(** The store with the one product [aurora], and that product as the
    store hands it out. *)
Definition aurora_seeded_db : Database :=
  (@insert_one reliable seeded_db product_collection (model_dump aurora)).2.

Definition aurora_db : Database :=
  (@insert_one reliable empty_db product_collection (model_dump aurora)).2.

Definition aurora_doc : document :=
  {| _id := None;
     body := <["id" := VStr (str_ObjectId 0%N)]> (model_dump aurora) |}.

(** * Properties *)

(** ** The validation applicative *)

Lemma errors_of_vap {A B : Type} (f : validated (A → B)) (r : validated A) :
  errors_of (f <*> r) = (errors_of f ++ errors_of r)%list.
Proof.
  destruct f, r; simpl; try reflexivity.
  by rewrite app_nil_r.
Qed.

Lemma errors_of_vmap {A B : Type} (g : A → B) (r : validated A) :
  errors_of (vmap g r) = errors_of r.
Proof. by destruct r. Qed.

Lemma errors_of_at_loc {A : Type} (i : loc_item) (r : validated A) :
  errors_of (at_loc i r) = under i <$> errors_of r.
Proof. by destruct r. Qed.

Lemma is_valid_vap {A B : Type} (f : validated (A → B)) (r : validated A) :
  is_valid (f <*> r) ↔ is_valid f ∧ is_valid r.
Proof. destruct f, r; simpl; tauto. Qed.

Lemma is_valid_vmap {A B : Type} (g : A → B) (r : validated A) :
  is_valid (vmap g r) ↔ is_valid r.
Proof. by destruct r. Qed.

Lemma is_valid_at_loc {A : Type} (i : loc_item) (r : validated A) :
  is_valid (at_loc i r) ↔ is_valid r.
Proof. by destruct r. Qed.

Lemma is_valid_errors {A : Type} (r : validated A) :
  proper r → (is_valid r ↔ errors_of r = []).
Proof. destruct r as [a|[|e es]]; simpl; intros Hp; split; try done. Qed.

Lemma proper_vap {A B : Type} (f : validated (A → B)) (r : validated A) :
  proper f → proper r → proper (f <*> r).
Proof.
  destruct f as [g|[|e es]], r as [a|[|e' es']]; simpl; try done.
Qed.

Lemma proper_vmap {A B : Type} (g : A → B) (r : validated A) :
  proper r → proper (vmap g r).
Proof. by destruct r as [a|[|e es]]. Qed.

Lemma proper_at_loc {A : Type} (i : loc_item) (r : validated A) :
  proper r → proper (at_loc i r).
Proof. by destruct r as [a|[|e es]]. Qed.

Lemma check_bounds_valid {A : Type} (at_least at_most : Z → bool)
    (ge le : option Z) (a : A) :
  is_valid (check_bounds at_least at_most ge le a) ↔
  match ge with Some b => at_least b = true | None => True end ∧
  match le with Some c => at_most c = true | None => True end.
Proof.
  unfold check_bounds, bound_errors.
  destruct ge as [b|], le as [c|]; try destruct (at_most c);
    try destruct (at_least b); simpl; intuition discriminate.
Qed.

Lemma check_bounds_float {A : Type} (ge le : option Z) (x : float) (a : A) :
  is_valid (check_bounds (float_at_least x) (float_at_most x) ge le a)
  ↔ float_keeps_bounds ge le x.
Proof.
  rewrite check_bounds_valid. unfold float_keeps_bounds, float_at_least, float_at_most.
  destruct ge, le; rewrite ?negb_true_iff; tauto.
Qed.

Lemma check_bounds_int {A : Type} (ge le : option Z) (z : Z) (a : A) :
  is_valid (check_bounds (int_at_least z) (int_at_most z) ge le a)
  ↔ int_in_bounds ge le z.
Proof.
  rewrite check_bounds_valid. unfold int_in_bounds, int_at_least, int_at_most.
  destruct ge, le; rewrite ?Z.leb_le; tauto.
Qed.

Lemma check_bounds_proper {A : Type} (at_least at_most : Z → bool)
    (ge le : option Z) (a : A) :
  proper (check_bounds at_least at_most ge le a).
Proof.
  unfold check_bounds, bound_errors.
  destruct ge, le; repeat case_match; done.
Qed.

Lemma check_bounds_value {A : Type} (at_least at_most : Z → bool)
    (ge le : option Z) (a b : A) :
  check_bounds at_least at_most ge le a = Valid b → a = b.
Proof.
  unfold check_bounds, bound_errors.
  destruct ge, le; repeat case_match; congruence.
Qed.

(** ** Validation decides the declarations *)

Section ValidationFacts.
Context `{LaxMode}.

Lemma validate_items_valid {A : Type} (item : value → validated A) (P : value → Prop) :
  (∀ v, is_valid (item v) ↔ P v) →
  ∀ l i, is_valid (validate_items item i l) ↔ Forall P l.
Proof.
  intros Hitem l. induction l as [|v l IH]; intros i; cbn [validate_items].
  - split; [constructor | done].
  - rewrite !is_valid_vap, is_valid_at_loc, Forall_cons, IH, Hitem. simpl. tauto.
Qed.

Lemma validate_items_proper {A : Type} (item : value → validated A) :
  (∀ v, proper (item v)) → ∀ l i, proper (validate_items item i l).
Proof.
  intros Hitem l. induction l as [|v l IH]; intros i; cbn [validate_items]; [done|].
  apply proper_vap; [apply proper_vap; [done|] |]; auto using proper_at_loc.
Qed.

Lemma validate_members_valid {A : Type} (item : value → validated A) (P : value → Prop) :
  (∀ v, is_valid (item v) ↔ P v) →
  ∀ kvs, is_valid (validate_members item kvs) ↔ Forall (fun kv => P kv.2) kvs.
Proof.
  intros Hitem kvs. induction kvs as [|[k v] kvs IH]; cbn [validate_members].
  - split; [constructor | done].
  - rewrite !is_valid_vap, is_valid_vmap, is_valid_at_loc, Forall_cons, IH, Hitem.
    simpl. tauto.
Qed.

Lemma validate_members_proper {A : Type} (item : value → validated A) :
  (∀ v, proper (item v)) → ∀ kvs, proper (validate_members item kvs).
Proof.
  intros Hitem kvs. induction kvs as [|[k v] kvs IH]; cbn [validate_members]; [done|].
  apply proper_vap; [apply proper_vap; [done|] |];
    auto using proper_at_loc, proper_vmap.
Qed.

Lemma validate_str_valid (v : value) : is_valid (validate_str v) ↔ is_text v.
Proof.
  unfold validate_str, is_text.
  destruct v; simpl; split; try done; try (intros [s Hs]; discriminate).
  eauto.
Qed.

Lemma validate_str_proper (v : value) : proper (validate_str v).
Proof. by destruct v. Qed.

Lemma validate_list_valid {A : Type} (item : value → validated A) (P : value → Prop) :
  (∀ v, is_valid (item v) ↔ P v) →
  ∀ v, is_valid (validate_list item v) ↔ ∃ l, v = VList l ∧ Forall P l.
Proof.
  intros Hitem v.
  destruct v; simpl; try (split; [done | intros (l' & Hl & _); discriminate]).
  rewrite (validate_items_valid item P Hitem). split.
  - eauto.
  - by intros (l' & [= <-] & Hl).
Qed.

Lemma validate_list_proper {A : Type} (item : value → validated A) :
  (∀ v, proper (item v)) → ∀ v, proper (validate_list item v).
Proof. intros Hitem v. destruct v; simpl; auto using validate_items_proper. Qed.

Lemma validate_dict_valid {A : Type} (item : value → validated A) (P : value → Prop) :
  (∀ v, is_valid (item v) ↔ P v) →
  ∀ v, is_valid (validate_dict item v)
       ↔ ∃ kvs, v = VDict kvs ∧ Forall (fun kv => P kv.2) kvs.
Proof.
  intros Hitem v.
  destruct v; simpl; try (split; [done | intros (l' & Hl & _); discriminate]).
  rewrite (validate_members_valid item P Hitem). split.
  - eauto.
  - by intros (l' & [= <-] & Hl).
Qed.

Lemma validate_dict_proper {A : Type} (item : value → validated A) :
  (∀ v, proper (item v)) → ∀ v, proper (validate_dict item v).
Proof. intros Hitem v. destruct v; simpl; auto using validate_members_proper. Qed.

Lemma validate_Variant_valid (v : value) :
  is_valid (validate_Variant v) ↔ well_typed TVariant None None v.
Proof.
  cbn [well_typed]. destruct v; cbn [validate_Variant];
    try (split; [done | intros (l' & Hl & _); discriminate]).
  rewrite !is_valid_vap.
  pose proof (validate_list_valid validate_str is_text validate_str_valid) as Hlist.
  split.
  - intros [[_ Hname] Hopts]. exists kvs. split; [done|]. split.
    + destruct (assoc "name" kvs) as [x|]; [|done].
      exists x. split; [done|].
      by rewrite is_valid_at_loc, validate_str_valid in Hname.
    + intros x Hx. rewrite Hx, is_valid_at_loc in Hopts. by apply Hlist.
  - intros (kvs' & [= <-] & (x & Hx & Htext) & Hopts). rewrite Hx.
    split; [split; [done|] |].
    + by rewrite is_valid_at_loc, validate_str_valid.
    + destruct (assoc "options" kvs) as [y|]; [|done].
      rewrite is_valid_at_loc. apply Hlist; auto.
Qed.

Lemma validate_Variant_proper (v : value) : proper (validate_Variant v).
Proof.
  destruct v; cbn [validate_Variant]; try done.
  apply proper_vap; [apply proper_vap; [done|] |]; repeat case_match; try done;
    apply proper_at_loc; auto using validate_str_proper, validate_list_proper.
Qed.

Lemma validate_type_valid (t : py_type) :
  ∀ ge le v, is_valid (validate_type t ge le v) ↔ well_typed t ge le v.
Proof.
  induction t as [| | | |t IH|t IH|t IH|]; intros ge le v.
  - apply validate_str_valid.
  - simpl. unfold validate_float. destruct (as_float v) as [q|]; simpl.
    + rewrite check_bounds_float. split; [eauto|]. by intros (q' & [= <-] & Hb).
    + split; [done|]. by intros (q' & ? & _).
  - simpl. unfold validate_int. destruct (as_int v) as [z|]; simpl.
    + rewrite check_bounds_int. split; [eauto|]. by intros (q' & [= <-] & Hb).
    + split; [done|]. by intros (q' & ? & _).
  - simpl. unfold validate_bool. destruct (as_bool v) as [b|]; simpl.
    + split; eauto.
    + split; [done|]. by intros (q' & ?).
  - simpl. destruct v; try (rewrite is_valid_vmap, IH; simpl; split;
                           [by right | by intros [?|?]]).
    simpl. split; [by left | done].
  - simpl. apply validate_list_valid. intros x. apply IH.
  - simpl. apply validate_dict_valid. intros x. apply IH.
  - apply validate_Variant_valid.
Qed.

Lemma validate_type_proper (t : py_type) :
  ∀ ge le v, proper (validate_type t ge le v).
Proof.
  induction t as [| | | |t IH|t IH|t IH|]; intros ge le v; simpl.
  - apply validate_str_proper.
  - unfold validate_float. case_match; [apply check_bounds_proper | done].
  - unfold validate_int. case_match; [apply check_bounds_proper | done].
  - unfold validate_bool. by case_match.
  - destruct v; try done; apply proper_vmap, IH.
  - apply validate_list_proper. intros x. apply IH.
  - apply validate_dict_proper. intros x. apply IH.
  - apply validate_Variant_proper.
Qed.

(** A field validates exactly when the raw record satisfies its
    declaration. *)
Lemma validate_field_valid (f : field) (raw : raw_record) :
  is_valid (validate_field f raw) ↔ satisfies f raw.
Proof.
  unfold validate_field, satisfies.
  destruct (raw !! field_name f) as [v|].
  - rewrite is_valid_at_loc. apply validate_type_valid.
  - destruct (Field.default (model_fields f)); simpl; split; done.
Qed.

Lemma validate_field_proper (f : field) (raw : raw_record) :
  proper (validate_field f raw).
Proof.
  unfold validate_field.
  destruct (raw !! field_name f) as [v|].
  - apply proper_at_loc, validate_type_proper.
  - by destruct (Field.default (model_fields f)).
Qed.

(** Every error of a field is located under the name of the field. *)
Lemma validate_field_names (f : field) (raw : raw_record) (e : ErrorDetails) :
  e ∈ errors_of (validate_field f raw) → names e f.
Proof.
  unfold validate_field, names.
  destruct (raw !! field_name f) as [v|].
  - rewrite errors_of_at_loc. intros (e' & -> & _)%list_elem_of_fmap. done.
  - destruct (Field.default (model_fields f)); simpl; try by intros ?%elem_of_nil.
    by intros ->%list_elem_of_singleton.
Qed.

Lemma field_name_inj (f g : field) : field_name f = field_name g → f = g.
Proof. destruct f, g; simpl; intros Heq; try reflexivity; discriminate Heq. Qed.

(** The errors of the model are those of its fields, one field after the
    other. *)
Lemma validate_Product_errors (raw : raw_record) :
  errors_of (validate_Product raw)
  = mjoin ((fun f => errors_of (validate_field f raw)) <$> all_fields).
Proof.
  unfold validate_Product. rewrite !errors_of_vap. simpl.
  rewrite app_nil_r, <- !app_assoc. reflexivity.
Qed.

Lemma validate_Product_valid (raw : raw_record) :
  is_valid (validate_Product raw) ↔ ∀ f, is_valid (validate_field f raw).
Proof.
  unfold validate_Product. rewrite !is_valid_vap. simpl. split.
  - intros Hall f. destruct f; tauto.
  - intros Hall. repeat split; apply Hall.
Qed.


Lemma all_fields_complete (f : field) : f ∈ all_fields.
Proof. destruct f; unfold all_fields; set_solver. Qed.

Lemma errors_of_field_in_model (f : field) (raw : raw_record) (e : ErrorDetails) :
  e ∈ errors_of (validate_field f raw) → e ∈ errors_of (validate_Product raw).
Proof.
  intros He. rewrite validate_Product_errors, list_elem_of_join.
  exists (errors_of (validate_field f raw)). split; [done|].
  apply list_elem_of_fmap. exists f. split; [done | apply all_fields_complete].
Qed.

Lemma errors_of_model_in_field (raw : raw_record) (e : ErrorDetails) :
  e ∈ errors_of (validate_Product raw) →
  ∃ f, e ∈ errors_of (validate_field f raw) ∧ names e f.
Proof.
  rewrite validate_Product_errors, list_elem_of_join.
  intros (es & He & (f & -> & _)%list_elem_of_fmap).
  exists f. eauto using validate_field_names.
Qed.

(** A field is named by an error exactly when it does not validate. *)
Lemma field_named_iff (f : field) (raw : raw_record) :
  (∃ e, e ∈ errors_of (validate_Product raw) ∧ names e f)
  ↔ ¬ is_valid (validate_field f raw).
Proof.
  split.
  - intros (e & (g & He & Hg)%errors_of_model_in_field & Hf).
    assert (f = g) as <-.
    { apply field_name_inj. unfold names in *. congruence. }
    destruct (validate_field f raw); [by apply elem_of_nil in He | simpl; tauto].
  - intros Hinv. pose proof (validate_field_proper f raw) as Hp.
    destruct (validate_field f raw) as [a|[|e es]] eqn:E; try done.
    exists e. split.
    + apply (errors_of_field_in_model f). rewrite E. simpl. by left.
    + apply (validate_field_names f raw). rewrite E. simpl. by left.
Qed.













(** C4, amended: on the fields [title], [slug] and [category] validation
    reports an error exactly when the field is missing or is not a text; a
    text, the empty string included, is accepted. *)
Theorem text_fields_accept_any_text (raw : raw_record) (f : field) :
  f ∈ [f_title; f_slug; f_category] →
  (∃ e, e ∈ errors_of (validate_Product raw) ∧ names e f)
  ↔ ¬ ∃ s, raw !! field_name f = Some (VStr s).
Proof.
  intros Hf. rewrite field_named_iff, validate_field_valid.
  assert (satisfies f raw ↔ ∃ s, raw !! field_name f = Some (VStr s)) as ->; [|done].
  assert (f = f_title ∨ f = f_slug ∨ f = f_category) as [ -> | [ -> | -> ] ]
    by (set_unfold; tauto);
    unfold satisfies; cbn;
    (destruct (raw !! _) as [v|]; [| split; [done | by intros [s ?]]]);
    unfold is_text; split; intros [s Hs]; exists s; congruence.
Qed.

End ValidationFacts.

(** Two bounds broken and a negative count: three errors, one per field. *)
Example bad_numbers_errors :
  errors_of (@validate_Product no_coercion bad_numbers)
  = [ {| loc := [LKey "price"]; type := greater_than_equal 0 |};
      {| loc := [LKey "rating"]; type := less_than_equal 5 |};
      {| loc := [LKey "review_count"]; type := greater_than_equal 0 |} ].
Proof. vm_compute. reflexivity. Qed.

(** An integer that no double holds is no price. *)
Example huge_price_error :
  errors_of (@validate_Product no_coercion huge_price)
  = [ {| loc := [LKey "price"]; type := float_type |} ].
Proof. vm_compute. reflexivity. Qed.


(** Whatever pydantic coerces, the record with the empty texts validates. *)
Lemma empty_texts_valid `{LaxMode} : errors_of (validate_Product empty_texts) = [].
Proof. vm_compute. reflexivity. Qed.

(** C4 as stated fails: the record [empty_texts] has an empty [title],
    [slug] and [category] and validates without any error, under every
    coercion table. *)
Lemma empty_text_is_not_rejected :
  ¬ ∃ L : LaxMode,
      ∀ (raw : raw_record) (f : field),
        f ∈ [f_title; f_slug; f_category] →
        raw !! field_name f = Some (VStr "") →
        ∃ e, e ∈ errors_of (validate_Product raw) ∧ names e f.
Proof.
  intros [L Hclaim].
  destruct (Hclaim empty_texts f_title) as (e & He & _).
  - set_solver.
  - vm_compute. reflexivity.
  - rewrite empty_texts_valid in He. by apply elem_of_nil in He.
Qed.

Lemma text_fields_accept_any_text_witness :
  (∃ e, e ∈ errors_of (@validate_Product no_coercion empty_texts) ∧ names e f_slug)
  ↔ ¬ ∃ s, empty_texts !! field_name f_slug = Some (VStr s).
Proof.
  apply (@text_fields_accept_any_text no_coercion empty_texts f_slug).
  apply list_elem_of_In. simpl. tauto.
Defined.

(** ** The schema endpoint *)

Lemma model_dump_dom (p : Product) :
  dom (model_dump p) = list_to_set (field_name <$> all_fields).
Proof. unfold model_dump. rewrite dom_list_to_map_L. reflexivity. Qed.

(** C9: the description that [/schema] returns for the product entity
    declares exactly the fourteen fields of the Product model, which are
    the fields of the enumeration [field] and the members of every dumped
    Product. *)
Theorem schema_declares_the_Product_fields :
  product_fields_of_schema
  = Some ["title"; "slug"; "description"; "price"; "compare_at_price";
          "category"; "images"; "model_url"; "variants"; "badges"; "rating";
          "review_count"; "in_stock"; "specs"]
  ∧ product_fields_of_schema = Some (field_name <$> all_fields)
  ∧ NoDup (field_name <$> all_fields)
  ∧ (∀ f : field, f ∈ all_fields)
  ∧ (∀ p : Product, ∀ k : string,
       is_Some (model_dump p !! k) ↔ k ∈ field_name <$> all_fields).
Proof.
  split; [reflexivity|]. split; [reflexivity|]. split; [|split].
  - apply NoDup_ListNoDup. vm_compute.
    repeat (constructor; [intros Hin; simpl in Hin; intuition discriminate|]).
    constructor.
  - intros f. destruct f; unfold all_fields; set_solver.
  - intros p k. rewrite <- elem_of_dom, model_dump_dom. set_solver.
Qed.

(** ** The store *)

Lemma elem_of_find (d : Database) (name : string) (q : query) (doc : document) :
  doc ∈ find d name q ↔
  ∃ s, s ∈ collection d name ∧ matches q s = true ∧ doc = decode s.
Proof.
  unfold find. rewrite list_elem_of_fmap. split.
  - intros (s & -> & [Hm Hs]%list_elem_of_filter). eauto.
  - intros (s & Hs & Hm & ->). exists s. split; [done|].
    by apply list_elem_of_filter.
Qed.

Lemma find_none (d : Database) (name : string) (q : query) :
  Forall (fun s => matches q s = false) (collection d name) → find d name q = [].
Proof.
  unfold find. intros Hall.
  induction Hall as [|s l Hs _ IH]; [done|].
  rewrite filter_cons. by destruct (decide (matches q s = true)); [congruence|].
Qed.

Lemma elem_of_apply_limit `{LimitPolicy} (limit : Z) (docs : list document) (doc : document) :
  doc ∈ apply_limit limit docs → doc ∈ docs.
Proof.
  unfold apply_limit. repeat case_match; try done; apply subseteq_take.
Qed.

Lemma head_elem_of {A : Type} (l : list A) (x : A) : head l = Some x → x ∈ l.
Proof. destruct l; [done|]. intros [= ->]. by left. Qed.

(** ** Reading products *)

(** C8: when no product of the collection matches the slug,
    [get_product] raises the 404 [HTTPException] "Product not found", and
    leaves the store as it was. *)
Theorem get_product_not_found (d : Database) (slug : string) :
  Forall (fun s => matches (by_slug slug) s = false)
    (collection d product_collection) →
  get_product slug (Some d)
  = (Raise (HTTPException 404 "Product not found"), Some d).
Proof.
  intros Hnone. unfold get_product, mbind, handler_bind, find_one.
  by rewrite (find_none _ _ _ Hnone).
Qed.

Lemma get_product_not_found_witness :
  get_product "aurora" (Some seeded_db)
  = (Raise (HTTPException 404 "Product not found"), Some seeded_db).
Proof.
  apply (get_product_not_found seeded_db "aurora").
  vm_compute. repeat constructor.
Defined.

(** C7: every record that [list_products] or [get_product] returns is a
    stored product whose identifier was moved to the text member ["id"];
    it has no ["_id"] member left. *)
Theorem returned_records_expose_id `{LimitPolicy} (db : option Database) (doc : document) :
  returned_record db doc →
  ∃ d s, db = Some d ∧ s ∈ collection d product_collection ∧
    _id doc = None ∧
    body doc = <["id" := VStr (str_ObjectId (oid s))]> (members s) ∧
    body doc !! "id" = Some (VStr (str_ObjectId (oid s))).
Proof.
  intros [limit docs db' Hlist Hdoc | slug db' Hget].
  - unfold list_products, mbind, handler_bind, get_documents in Hlist.
    destruct db as [d|]; [|done]. simpl in Hlist. injection Hlist as <- _.
    apply list_elem_of_fmap in Hdoc as (doc0 & -> & Hdoc0).
    apply elem_of_apply_limit, elem_of_find in Hdoc0 as (s & Hs & _ & ->).
    exists d, s. simpl. by rewrite lookup_insert_eq.
  - unfold get_product, mbind, handler_bind, find_one in Hget.
    destruct db as [d|]; [|done].
    destruct (head (find d product_collection (by_slug slug))) as [doc0|] eqn:E;
      [|done].
    apply head_elem_of, elem_of_find in E as (s & Hs & _ & ->).
    simpl in Hget. injection Hget as <- _.
    exists d, s. simpl. by rewrite lookup_insert_eq.
Qed.

Lemma returned_records_expose_id_witness :
  ∃ d s, Some seeded_db = Some d ∧ s ∈ collection d product_collection ∧
    _id nebula = None ∧
    body nebula = <["id" := VStr (str_ObjectId (oid s))]> (members s) ∧
    body nebula !! "id" = Some (VStr (str_ObjectId (oid s))).
Proof.
  apply (@returned_records_expose_id no_limit (Some seeded_db) nebula).
  apply (@returned_by_slug no_limit _ _ "nebula-pro-v" (Some seeded_db)).
  vm_compute. reflexivity.
Defined.

(** ** Writing to the store *)

Section Writing.
Context `{Backend}.

Lemma collection_insert_one (d : Database) (name : string) (doc : raw_record) :
  collection (insert_one d name doc).2 name
  = insert_at (position d name doc) {| oid := next_id d; members := doc |}
      (collection d name).
Proof. unfold insert_one, collection. simpl. by rewrite lookup_insert_eq. Qed.


Lemma create_document_live (d : Database) (name : string) (p : Product) :
  create_document name p (Some d)
  = if accepts d name (model_dump p)
    then (Return (str_ObjectId (next_id d)),
          Some (insert_one d name (model_dump p)).2)
    else (Raise StorageError, Some d).
Proof. unfold create_document. by destruct (accepts d name (model_dump p)). Qed.

(** ** The demo seed *)

(** The literals of [demo] pass the validation that the constructor
    [Product(...)] runs on them. *)
Example demo_validates `{LaxMode} :
  Forall (fun p => validate_Product (model_dump p) = Valid p) demo.
Proof. repeat constructor. Qed.

(** C5: what the seed does with a live handle, whatever the collection
    holds: testing the truth of the handle in [if db] raises
    [NotImplementedError] before any document is counted or inserted, so
    the store is left as it is and neither status is answered. *)
Theorem seed_raises_on_live_handle (d : Database) :
  seed_demo_products (Some d) = (Raise NotImplementedError, Some d) ∧
  (seed_demo_products (Some d)).1 ≠ Return seeded ∧
  (seed_demo_products (Some d)).1 ≠ Return already_present.
Proof. repeat split; discriminate. Qed.

(** C10: without a database handle the seed takes the count to be zero
    and goes on to insert, where [create_document] fails; it does not
    answer "Products already present".  Nor does it with a handle, whose
    truth cannot be tested: that answer is given in no state at all, so
    only in states where a live handle reports a count above zero. *)
Theorem seed_counts_zero_without_handle (db : option Database) :
  match db with
  | None =>
      count_products None = (Return 0%Z, None) ∧
      seed_demo_products None = seed_insert None ∧
      seed_demo_products None = (Raise StorageUnavailable, None)
  | Some d => seed_demo_products (Some d) = (Raise NotImplementedError, Some d)
  end ∧
  (seed_demo_products db).1 ≠ Return already_present.
Proof. destruct db as [d|]; repeat split; discriminate. Qed.

End Writing.

(** ** Listing products *)

Lemma find_all (d : Database) (name : string) :
  find d name [] = decode <$> collection d name.
Proof.
  unfold find. f_equal.
  induction (collection d name) as [|s l IH]; [done|].
  rewrite filter_cons_True by done. by rewrite IH.
Qed.

Lemma list_products_live `{LimitPolicy} (d : Database) (limit : Z) :
  list_products limit (Some d)
  = (Return (normalize <$> apply_limit limit (decode <$> collection d product_collection)),
     Some d).
Proof.
  unfold list_products, mbind, handler_bind, get_documents.
  by rewrite find_all.
Qed.

(** C6, amended: for every limit above zero, [list_products] returns the
    first [limit] products of the collection in natural order, so at most
    [limit] records, and every product when the collection holds no more
    than [limit] of them (the two seeded ones for the limit 20). *)
Theorem list_products_respects_positive_limit `{LimitPolicy} (d : Database) (limit : Z) :
  (0 < limit)%Z →
  ∃ docs,
    list_products limit (Some d) = (Return docs, Some d) ∧
    (Z.of_nat (length docs) ≤ limit)%Z ∧
    docs = normalize ∘ decode <$> take (Z.to_nat limit) (collection d product_collection) ∧
    ((Z.of_nat (length (collection d product_collection)) ≤ limit)%Z →
     docs = normalize ∘ decode <$> collection d product_collection).
Proof.
  intros Hpos. eexists. split; [apply list_products_live|].
  unfold apply_limit. apply Z.ltb_lt in Hpos as Hlt. rewrite Hlt.
  rewrite <- fmap_take, <- list_fmap_compose.
  split; [|split; [done|]].
  - rewrite length_fmap, length_take. lia.
  - intros Hall. rewrite take_ge; [done | lia].
Qed.

Lemma list_products_respects_positive_limit_witness :
  ∃ docs,
    @list_products no_limit default_limit (Some seeded_db) = (Return docs, Some seeded_db) ∧
    (Z.of_nat (length docs) ≤ default_limit)%Z ∧
    docs = normalize ∘ decode
             <$> take (Z.to_nat default_limit) (collection seeded_db product_collection) ∧
    ((Z.of_nat (length (collection seeded_db product_collection)) ≤ default_limit)%Z →
     docs = normalize ∘ decode <$> collection seeded_db product_collection).
Proof.
  apply (@list_products_respects_positive_limit no_limit seeded_db default_limit).
  reflexivity.
Defined.

(** The limit 20 on the seeded store: the two demo products, in order. *)
Example list_products_seeded :
  ∃ specter,
    @list_products no_limit default_limit (Some seeded_db)
    = (Return [specter; nebula], Some seeded_db) ∧
    body specter !! "slug" = Some (VStr "specter-series-x1") ∧
    body nebula !! "slug" = Some (VStr "nebula-pro-v").
Proof. eexists. vm_compute. done. Qed.

(** C6 as stated fails for a limit below zero, whatever [get_documents]
    does with it: the answer on the empty store has no fewer than zero
    records, which is more than [-1]. *)
Lemma negative_limit_is_exceeded :
  ¬ ∃ P : LimitPolicy,
      ∀ (limit : Z) (db : option Database) (docs : list document) (db' : option Database),
        list_products limit db = (Return docs, db') →
        (Z.of_nat (length docs) ≤ limit)%Z.
Proof.
  intros [P Hclaim].
  specialize (Hclaim (-1)%Z (Some empty_db) _ _ (list_products_live empty_db (-1))).
  lia.
Qed.

(** ** Creating products *)

Lemma model_dump_lookup (p : Product) (f : field) :
  model_dump p !! field_name f
  = Some (dump_type (Field.annotation (model_fields f)) (get_field f p)).
Proof. destruct f; reflexivity. Qed.

Lemma matches_own_slug (p : Product) (o : ObjectId) :
  matches (by_slug (slug p)) {| oid := o; members := model_dump p |} = true.
Proof.
  pose proof (model_dump_lookup p f_slug) as Hslug. cbn [field_name] in Hslug.
  unfold matches, by_slug. cbn [forallb members]. rewrite Hslug. simpl.
  by rewrite bool_decide_eq_true_2.
Qed.

Lemma dict_truthy_found (d : Database) (name : string) (q : query) (doc : document) :
  doc ∈ find d name q → dict_truthy doc = true.
Proof. by intros (s & _ & _ & ->)%elem_of_find. Qed.

Lemma insert_at_Permutation {A : Type} (k : nat) (x : A) (l : list A) :
  insert_at k x l ≡ₚ x :: l.
Proof.
  unfold insert_at. rewrite <- Permutation_middle.
  by rewrite take_drop.
Qed.

Section Creation.
Context `{Backend}.

(** The documents that a query finds after an insert: those it found
    before and the new one when it matches, in the order the collection
    gives them. *)
Lemma find_insert_one (d : Database) (name : string) (doc : raw_record) (q : query) :
  find (insert_one d name doc).2 name q
  ≡ₚ (if matches q {| oid := next_id d; members := doc |}
      then [decode {| oid := next_id d; members := doc |}] else [])
     ++ find d name q.
Proof.
  unfold find. rewrite collection_insert_one, insert_at_Permutation.
  rewrite filter_cons. destruct (matches q _); by case_decide.
Qed.

Lemma find_insert_one_own (d : Database) (payload : Product) :
  find (insert_one d product_collection (model_dump payload)).2 product_collection
    (by_slug (slug payload)) ≠ [].
Proof.
  intros Hnil. pose proof (find_insert_one d product_collection (model_dump payload)
                             (by_slug (slug payload))) as Hperm.
  rewrite Hnil, matches_own_slug in Hperm.
  by apply Permutation_nil_cons in Hperm.
Qed.

(** A slug that no product has: the payload is inserted when the store
    accepts it, and the failure of the store is passed on otherwise. *)
Lemma create_product_new (d : Database) (payload : Product) :
  find d product_collection (by_slug (slug payload)) = [] →
  create_product payload (Some d)
  = if accepts d product_collection (model_dump payload)
    then (Return {["id" := str_ObjectId (next_id d)]},
          Some (insert_one d product_collection (model_dump payload)).2)
    else (Raise StorageError, Some d).
Proof.
  intros Hnone. unfold create_product, mbind, handler_bind, find_one.
  rewrite Hnone. cbn [head from_option]. rewrite create_document_live.
  by destruct (accepts d product_collection (model_dump payload)).
Qed.

(** A slug that a product has: nothing is inserted. *)
Lemma create_product_duplicate (d : Database) (payload : Product) :
  find d product_collection (by_slug (slug payload)) ≠ [] →
  create_product payload (Some d)
  = (Raise (HTTPException 400 "Slug already exists"), Some d).
Proof.
  intros Hsome. unfold create_product, mbind, handler_bind, find_one.
  destruct (find d product_collection (by_slug (slug payload))) as [|doc rest] eqn:E;
    [done|].
  assert (dict_truthy doc = true) as Htruthy.
  { apply (dict_truthy_found d product_collection (by_slug (slug payload))).
    rewrite E. by left. }
  simpl. by rewrite Htruthy.
Qed.

Context `{LaxMode}.

(** C1, amended: the request body is validated first, and a body that
    does not validate is answered with the validation errors, located
    under [body], whatever its slug; for a payload that validates, the
    handler looks the slug up before it inserts: when a product has it,
    the answer is the 400 error "Slug already exists" and the store is
    left as it is; when none has, the product is created if the store
    accepts the insert, and from then on every request whose body
    validates with that slug gets "Slug already exists"; if the store
    refuses the insert, its failure is the answer and nothing is stored. *)
Theorem create_product_checks_slug_after_validation (d : Database) (body : raw_record) :
  match validate_Product body with
  | Invalid errors =>
      post_api_products body (Some d)
      = (Raise (RequestValidationError (body_errors errors)), Some d)
  | Valid payload =>
      match find d product_collection (by_slug (slug payload)) with
      | _ :: _ =>
          post_api_products body (Some d)
          = (Raise (HTTPException 400 "Slug already exists"), Some d)
      | [] =>
          if accepts d product_collection (model_dump payload)
          then
            ∃ d',
              post_api_products body (Some d)
              = (Return {["id" := str_ObjectId (next_id d)]}, Some d') ∧
              ∀ (later : raw_record) (payload' : Product),
                validate_Product later = Valid payload' →
                slug payload' = slug payload →
                post_api_products later (Some d')
                = (Raise (HTTPException 400 "Slug already exists"), Some d')
          else
            post_api_products body (Some d) = (Raise StorageError, Some d)
      end
  end.
Proof.
  unfold post_api_products.
  destruct (validate_Product body) as [payload|errors] eqn:Hbody; [|reflexivity].
  destruct (find d product_collection (by_slug (slug payload))) as [|doc rest] eqn:E.
  - rewrite (create_product_new d payload E).
    destruct (accepts d product_collection (model_dump payload)); [|done].
    eexists. split; [done|].
    intros later payload' -> Hslug.
    apply create_product_duplicate. rewrite Hslug.
    apply find_insert_one_own.
  - apply create_product_duplicate. by rewrite E.
Qed.

End Creation.

(** C1 as stated fails: on the seeded store, a body with the slug of a
    seeded product and a rating of 7 is answered with the validation error
    and not with "Slug already exists", under every coercion table and
    every store. *)
Lemma invalid_duplicate_gets_validation_error :
  ¬ ∃ (L : LaxMode) (B : Backend),
      ∀ (d : Database) (body : raw_record) (s : string),
        body !! "slug" = Some (VStr s) →
        find d product_collection (by_slug s) ≠ [] →
        (post_api_products body (Some d)).1
        = Raise (HTTPException 400 "Slug already exists").
Proof.
  intros (L & B & Hclaim).
  specialize (Hclaim seeded_db duplicate_and_invalid "nebula-pro-v").
  assert (@post_api_products L B duplicate_and_invalid (Some seeded_db)
          = (Raise (RequestValidationError
                      [{| loc := [LKey "body"; LKey "rating"];
                          type := less_than_equal 5 |}]),
             Some seeded_db)) as Hrun by reflexivity.
  rewrite Hrun in Hclaim. simpl in Hclaim.
  assert (Raise (RequestValidationError
                   [{| loc := [LKey "body"; LKey "rating"];
                       type := less_than_equal 5 |}])
          = @Raise (gmap string string) (HTTPException 400 "Slug already exists"))
    as Habs; [|discriminate Habs].
  apply Hclaim; [reflexivity|]. vm_compute. discriminate.
Qed.

(** ** What is stored validates again *)

Lemma hex_digits_length (width : nat) (n : N) (acc : string) :
  String.length (hex_digits width n acc) = (width + String.length acc)%nat.
Proof.
  revert n acc. induction width as [|w IH]; intros n acc; [done|].
  cbn [hex_digits]. rewrite IH. simpl. lia.
Qed.

Lemma str_ObjectId_nonempty (o : ObjectId) : str_ObjectId o ≠ "".
Proof.
  intros Heq. apply (f_equal String.length) in Heq.
  unfold str_ObjectId in Heq. rewrite hex_digits_length in Heq. discriminate Heq.
Qed.

Lemma value_in_bounds_unbounded (t : py_type) (a : denote t) :
  value_in_bounds t None None a.
Proof.
  induction t; simpl; try done.
  destruct a; auto.
Qed.

Lemma dump_type_not_None (t : py_type) (a : denote t) :
  is_optional t = false → dump_type t a ≠ VNone.
Proof. destruct t; done. Qed.

Section RoundTrip.
Context `{LaxMode}.

Lemma check_bounds_is_valid {A : Type} (at_least at_most : Z → bool)
    (ge le : option Z) (a : A) :
  is_valid (check_bounds at_least at_most ge le a)
  ↔ check_bounds at_least at_most ge le a = Valid a.
Proof.
  destruct (check_bounds at_least at_most ge le a) as [b|es] eqn:E; simpl.
  - apply check_bounds_value in E as ->. done.
  - split; [done | discriminate].
Qed.

(** What validates is within the bounds of its field. *)
Lemma validate_type_in_bounds (t : py_type) :
  ∀ ge le v a, validate_type t ge le v = Valid a → value_in_bounds t ge le a.
Proof.
  induction t as [| | | |t IH|t IH|t IH|]; intros ge le v a; simpl; try done.
  - unfold validate_float. destruct (as_float v) as [q|]; [|done].
    intros Hq. pose proof (check_bounds_value _ _ _ _ _ _ Hq) as ->.
    pose proof (proj1 (@check_bounds_float float ge le a a)) as Hb.
    rewrite Hq in Hb. by apply Hb.
  - unfold validate_int. destruct (as_int v) as [z|]; [|done].
    intros Hz. pose proof (check_bounds_value _ _ _ _ _ _ Hz) as ->.
    pose proof (proj1 (@check_bounds_int Z ge le a a)) as Hb.
    rewrite Hz in Hb. by apply Hb.
  - destruct v; try (intros [= <-]; done);
      (destruct (validate_type t ge le _) as [r|] eqn:E; simpl; [|done];
       intros [= <-]; by apply IH in E).
Qed.

Lemma validate_items_dump {A : Type} (item : value → validated A) (dump : A → value) :
  (∀ a, item (dump a) = Valid a) →
  ∀ l i, validate_items item i (dump <$> l) = Valid l.
Proof.
  intros Hitem l. induction l as [|a l IH]; intros i; [done|].
  cbn [validate_items fmap list_fmap]. fold (dump <$> l).
  by rewrite Hitem, IH.
Qed.

Lemma validate_members_dump {A : Type} (item : value → validated A) (dump : A → value) :
  (∀ a, item (dump a) = Valid a) →
  ∀ kvs, validate_members item (prod_map id dump <$> kvs) = Valid kvs.
Proof.
  intros Hitem kvs. induction kvs as [|[k a] kvs IH]; [done|].
  cbn [validate_members fmap list_fmap prod_map fst snd id].
  fold (prod_map id dump <$> kvs).
  by rewrite Hitem, IH.
Qed.

Lemma validate_dump_Variant (v : Variant) : validate_Variant (dump_Variant v) = Valid v.
Proof.
  destruct v as [n o]. unfold dump_Variant, validate_Variant. cbn [name options assoc].
  repeat (case_decide; try done). cbn [validate_list validate_str as_str at_loc].
  by rewrite (validate_items_dump validate_str VStr).
Qed.

(** Validation undoes [dump_type] on values within the bounds. *)
Lemma validate_dump_type (t : py_type) :
  flat_optionals t = true →
  ∀ ge le a, value_in_bounds t ge le a →
             validate_type t ge le (dump_type t a) = Valid a.
Proof.
  induction t as [| | | |t IH|t IH|t IH|]; intros Hflat ge le a Ha;
    cbn [validate_type dump_type]; try done.
  - unfold validate_float. simpl. by apply check_bounds_is_valid, check_bounds_float.
  - unfold validate_int. simpl. by apply check_bounds_is_valid, check_bounds_int.
  - simpl in Hflat. apply andb_true_iff in Hflat as [Hopt Hflat].
    apply negb_true_iff in Hopt.
    destruct a as [a|]; [|done].
    pose proof (dump_type_not_None t a Hopt) as Hne.
    specialize (IH Hflat ge le a Ha).
    destruct (dump_type t a); try done; by rewrite IH.
  - unfold validate_list. apply validate_items_dump.
    intros x. apply IH; [done | apply value_in_bounds_unbounded].
  - unfold validate_dict. apply validate_members_dump.
    intros x. apply IH; [done | apply value_in_bounds_unbounded].
  - apply validate_dump_Variant.
Qed.

End RoundTrip.

Section StoredProduct.
Context `{LaxMode}.

Lemma at_loc_Valid {A : Type} (i : loc_item) (r : validated A) (a : A) :
  at_loc i r = Valid a → r = Valid a.
Proof. by destruct r. Qed.

(** The attributes of a validated payload are what its fields validated
    to. *)
Lemma validate_Product_fields (raw : raw_record) (p : Product) :
  validate_Product raw = Valid p →
  ∀ f, validate_field f raw = Valid (get_field f p).
Proof.
  intros Hp.
  assert (∀ f, is_valid (validate_field f raw)) as Hvalid.
  { apply validate_Product_valid. by rewrite Hp. }
  unfold validate_Product in Hp.
  repeat match type of Hp with
         | context [validate_field ?f raw] =>
             let E := fresh "E" in
             let V := fresh "V" in
             pose proof (Hvalid f) as V;
             destruct (validate_field f raw) eqn:E; [clear V | done]
         end.
  simpl in Hp. injection Hp as <-. intros f. by destruct f.
Qed.

Lemma default_in_bounds (f : field) (a : field_type f) :
  Field.default (model_fields f) = default_value a
  ∨ Field.default (model_fields f) = default_factory a →
  value_in_bounds (Field.annotation (model_fields f))
    (Field.ge (model_fields f)) (Field.le (model_fields f)) a.
Proof.
  destruct f; simpl; intros [Hd|Hd]; try done; injection Hd as <-; try done;
    split; try done; by vm_compute.
Qed.

Lemma validate_field_in_bounds (f : field) (raw : raw_record) (a : field_type f) :
  validate_field f raw = Valid a →
  value_in_bounds (Field.annotation (model_fields f))
    (Field.ge (model_fields f)) (Field.le (model_fields f)) a.
Proof.
  unfold validate_field. destruct (raw !! field_name f) as [v|].
  - intros Hv%at_loc_Valid. by apply validate_type_in_bounds in Hv.
  - destruct (Field.default (model_fields f)) as [|b|b] eqn:E; [done| |];
      intros [= <-]; apply default_in_bounds; auto.
Qed.

(** A dumped payload, with or without an ["id"] beside its fields,
    validates to the payload. *)
Lemma validate_model_dump (raw : raw_record) (p : Product) (id : value) :
  validate_Product raw = Valid p →
  validate_Product (model_dump p) = Valid p
  ∧ validate_Product (<["id" := id]> (model_dump p)) = Valid p.
Proof.
  intros Hp. pose proof (validate_Product_fields raw p Hp) as Hfields.
  assert (∀ f, validate_field f (model_dump p) = Valid (get_field f p)
               ∧ validate_field f (<["id" := id]> (model_dump p)) = Valid (get_field f p))
    as Hdump.
  { intros f. unfold validate_field.
    rewrite lookup_insert_ne by (by destruct f).
    rewrite model_dump_lookup, validate_dump_type; [done | by destruct f |].
    apply (validate_field_in_bounds f raw), Hfields. }
  unfold validate_Product.
  split;
    repeat match goal with
           | |- context [validate_field ?f ?m] =>
               first [rewrite (proj1 (Hdump f)) | rewrite (proj2 (Hdump f))]
           end;
    by destruct p.
Qed.

Context `{Backend}.

Lemma find_insert_one_new (d : Database) (payload : Product) :
  find d product_collection (by_slug (slug payload)) = [] →
  find (insert_one d product_collection (model_dump payload)).2 product_collection
    (by_slug (slug payload))
  = [decode {| oid := next_id d; members := model_dump payload |}].
Proof.
  intros Hnew. apply Permutation_singleton_r.
  by rewrite find_insert_one, Hnew, matches_own_slug.
Qed.

(** C2, amended: on a live store that accepts the insert, a body that
    validates to a payload whose slug no stored product has is inserted,
    the answer carrying the identifier as a text that is not empty;
    [get_product] with that slug then returns the dumped payload with that
    identifier as ["id"] and no ["_id"], a record that validates to the
    payload again. *)
Theorem created_product_is_returned_by_slug
    (d : Database) (raw : raw_record) (payload : Product) :
  validate_Product raw = Valid payload →
  find d product_collection (by_slug (slug payload)) = [] →
  accepts d product_collection (model_dump payload) = true →
  ∃ id d' doc,
    post_api_products raw (Some d) = (Return {["id" := id]}, Some d') ∧
    get_product (slug payload) (Some d') = (Return doc, Some d') ∧
    _id doc = None ∧
    body doc = <["id" := VStr id]> (model_dump payload) ∧
    id ≠ "" ∧
    validate_Product (body doc) = Valid payload.
Proof.
  intros Hvalid Hnew Haccepts.
  exists (str_ObjectId (next_id d)),
    (insert_one d product_collection (model_dump payload)).2,
    {| _id := None;
       body := <["id" := VStr (str_ObjectId (next_id d))]> (model_dump payload) |}.
  repeat split.
  - unfold post_api_products. rewrite Hvalid.
    by rewrite (create_product_new d payload Hnew), Haccepts.
  - unfold get_product, mbind, handler_bind, find_one.
    by rewrite (find_insert_one_new d payload Hnew).
  - apply str_ObjectId_nonempty.
  - by apply (validate_model_dump raw).
Qed.

End StoredProduct.

Lemma created_product_is_returned_by_slug_witness :
  ∃ id d' doc,
    @post_api_products no_coercion reliable aurora_body (Some seeded_db)
    = (Return {["id" := id]}, Some d') ∧
    get_product (slug aurora) (Some d') = (Return doc, Some d') ∧
    _id doc = None ∧
    body doc = <["id" := VStr id]> (model_dump aurora) ∧
    id ≠ "" ∧
    @validate_Product no_coercion (body doc) = Valid aurora.
Proof.
  apply (@created_product_is_returned_by_slug no_coercion reliable
           seeded_db aurora_body aurora).
  - vm_compute. reflexivity.
  - vm_compute. reflexivity.
  - vm_compute. reflexivity.
Defined.

(** C2 as stated fails: a body whose review count is [2 ^ 70] validates,
    and no product has its slug on the empty store, but the count does not
    fit the eight bytes of a stored integer: the insert raises and no
    product is created, under every coercion table and every store. *)
Lemma unstorable_product_is_not_created :
  ¬ ∃ (L : LaxMode) (B : Backend),
      ∀ (d : Database) (raw : raw_record) (payload : Product),
        validate_Product raw = Valid payload →
        find d product_collection (by_slug (slug payload)) = [] →
        ∃ id d',
          post_api_products raw (Some d) = (Return {["id" := id]}, Some d').
Proof.
  intros (L & B & Hclaim).
  destruct (Hclaim empty_db huge_count_body huge_count) as (id & d' & Hrun);
    [reflexivity | reflexivity |].
  assert (@post_api_products L B huge_count_body (Some empty_db)
          = (Raise StorageError, Some empty_db)) as Hraise.
  { unfold post_api_products.
    assert (@validate_Product L huge_count_body = Valid huge_count) as -> by reflexivity.
    rewrite create_product_new by reflexivity.
    assert (bson_encodable (model_dump huge_count) = false) as Hbig
      by (vm_compute; reflexivity).
    unfold accepts. by rewrite Hbig. }
  rewrite Hraise in Hrun. discriminate Hrun.
Qed.

(** * Further properties *)

(** ** What a validated payload holds *)

Section ValidatedPayload.
Context `{LaxMode}.


(** X2: a field that the body leaves out takes the default of the
    schema: no description, comparison price or model URL, empty images,
    variants, badges and specs, a rating of 5, no reviews, in stock. *)
Theorem absent_fields_take_defaults (raw : raw_record) (p : Product) :
  validate_Product raw = Valid p →
  (raw !! "description" = None → description p = None) ∧
  (raw !! "compare_at_price" = None → compare_at_price p = None) ∧
  (raw !! "images" = None → images p = []) ∧
  (raw !! "model_url" = None → model_url p = None) ∧
  (raw !! "variants" = None → variants p = []) ∧
  (raw !! "badges" = None → badges p = []) ∧
  (raw !! "rating" = None → rating p = float_of_int 5) ∧
  (raw !! "review_count" = None → review_count p = 0%Z) ∧
  (raw !! "in_stock" = None → in_stock p = true) ∧
  (raw !! "specs" = None → specs p = []).
Proof.
  intros Hp. pose proof (validate_Product_fields raw p Hp) as Hfields.
  repeat split; intros Hnone;
    [ specialize (Hfields f_description) | specialize (Hfields f_compare_at_price)
    | specialize (Hfields f_images) | specialize (Hfields f_model_url)
    | specialize (Hfields f_variants) | specialize (Hfields f_badges)
    | specialize (Hfields f_rating) | specialize (Hfields f_review_count)
    | specialize (Hfields f_in_stock) | specialize (Hfields f_specs) ];
    unfold validate_field in Hfields; cbn [field_name] in Hfields;
    rewrite Hnone in Hfields; by injection Hfields.
Qed.

End ValidatedPayload.


(** A rating that is NaN validates, and is the rating of the payload. *)
Example nan_rating_validates :
  ∃ p, @validate_Product no_coercion nan_rating = Valid p ∧ rating p = S754_nan.
Proof. eexists. split; reflexivity. Qed.

Lemma absent_fields_take_defaults_witness :
  (aurora_body !! "description" = None → description aurora = None) ∧
  (aurora_body !! "compare_at_price" = None → compare_at_price aurora = None) ∧
  (aurora_body !! "images" = None → images aurora = []) ∧
  (aurora_body !! "model_url" = None → model_url aurora = None) ∧
  (aurora_body !! "variants" = None → variants aurora = []) ∧
  (aurora_body !! "badges" = None → badges aurora = []) ∧
  (aurora_body !! "rating" = None → rating aurora = float_of_int 5) ∧
  (aurora_body !! "review_count" = None → review_count aurora = 0%Z) ∧
  (aurora_body !! "in_stock" = None → in_stock aurora = true) ∧
  (aurora_body !! "specs" = None → specs aurora = []).
Proof.
  apply (@absent_fields_take_defaults no_coercion aurora_body aurora).
  reflexivity.
Defined.

(** ** What validation ignores and what it refuses *)

Section IgnoredAndRefused.
Context `{LaxMode} `{Backend}.

Lemma validate_Product_insert_other (raw : raw_record) (k : string) (v : value) :
  (∀ f, field_name f ≠ k) →
  validate_Product (<[k := v]> raw) = validate_Product raw.
Proof.
  intros Hk. unfold validate_Product, validate_field.
  by rewrite !lookup_insert_ne by apply not_eq_sym, Hk.
Qed.

(** X3: a member of the request body that is no field of the model, such
    as ["id"] or ["_id"], makes no difference to [POST /api/products]:
    the answer and the store are the same as without it. *)
Theorem unknown_members_are_ignored
    (raw : raw_record) (k : string) (v : value) (db : option Database) :
  (∀ f, field_name f ≠ k) →
  post_api_products (<[k := v]> raw) db = post_api_products raw db.
Proof.
  intros Hk. unfold post_api_products.
  by rewrite validate_Product_insert_other.
Qed.

(** X4: an explicit [null] is accepted where the annotation is
    [Optional] ([description], [compare_at_price], [model_url]) and is
    reported as an error of the field where the annotation is a text, a
    list or a dict. *)
Theorem null_only_where_optional (raw : raw_record) (f : field) :
  raw !! field_name f = Some VNone →
  (f ∈ [f_description; f_compare_at_price; f_model_url] →
   ¬ ∃ e, e ∈ errors_of (validate_Product raw) ∧ names e f) ∧
  (f ∈ [f_title; f_slug; f_category; f_images; f_variants; f_badges; f_specs] →
   ∃ e, e ∈ errors_of (validate_Product raw) ∧ names e f).
Proof.
  intros Hnull. rewrite field_named_iff.
  unfold validate_field. rewrite Hnull. split; intros Hf.
  - assert (f = f_description ∨ f = f_compare_at_price ∨ f = f_model_url)
      as [ -> | [ -> | -> ] ] by (set_unfold; tauto); simpl; tauto.
  - assert (f = f_title ∨ f = f_slug ∨ f = f_category ∨ f = f_images
            ∨ f = f_variants ∨ f = f_badges ∨ f = f_specs)
      as [ -> | [ -> | [ -> | [ -> | [ -> | [ -> | -> ] ] ] ] ] ]
      by (set_unfold; tauto); simpl; tauto.
Qed.

End IgnoredAndRefused.

Lemma unknown_members_are_ignored_witness :
  @post_api_products no_coercion reliable (<["id" := VStr "0123"]> aurora_body)
    (Some empty_db)
  = @post_api_products no_coercion reliable aurora_body (Some empty_db).
Proof.
  apply (@unknown_members_are_ignored no_coercion reliable aurora_body "id"
           (VStr "0123")).
  intros f. destruct f; discriminate.
Defined.

Lemma null_only_where_optional_witness :
  (f_title ∈ [f_description; f_compare_at_price; f_model_url] →
   ¬ ∃ e, e ∈ errors_of (@validate_Product no_coercion (<["title" := VNone]> aurora_body))
          ∧ names e f_title) ∧
  (f_title ∈ [f_title; f_slug; f_category; f_images; f_variants; f_badges; f_specs] →
   ∃ e, e ∈ errors_of (@validate_Product no_coercion (<["title" := VNone]> aurora_body))
        ∧ names e f_title).
Proof.
  apply (@null_only_where_optional no_coercion (<["title" := VNone]> aurora_body) f_title).
  reflexivity.
Defined.

(** ** The schema and the validation agree on what is required *)

(** X5: the fields that the schema description lists as ["required"]
    are exactly those that validation reports as [missing] whenever the
    body leaves them out: [title], [slug], [price] and [category]. *)
Theorem schema_required_is_what_validation_demands :
  ∃ l, member "required" model_json_schema = Some (VList l) ∧
    l = [VStr "title"; VStr "slug"; VStr "price"; VStr "category"] ∧
    ∀ f, VStr (field_name f) ∈ l ↔
         ∀ (L : LaxMode) (raw : raw_record),
           raw !! field_name f = None →
           {| loc := [LKey (field_name f)]; type := missing |}
             ∈ errors_of (validate_Product raw).
Proof.
  eexists. split; [reflexivity|]. split; [reflexivity|].
  intros f. split.
  - intros Hin L raw Hnone.
    apply (errors_of_field_in_model f). unfold validate_field. rewrite Hnone.
    apply list_elem_of_In in Hin. simpl in Hin.
    destruct f; simpl; try (by left); exfalso; intuition discriminate.
  - intros Hdemand. specialize (Hdemand no_coercion ∅ (lookup_empty _)).
    apply list_elem_of_In. apply list_elem_of_In in Hdemand.
    destruct f; simpl; try tauto; exfalso; vm_compute in Hdemand;
      intuition discriminate.
Qed.

(** ** Variants *)

Section Variants.
Context `{LaxMode}.

Lemma validate_items_errors {A : Type} (item : value → validated A) :
  ∀ (l : list value) (k i : nat) (x : value) (e : ErrorDetails),
    l !! i = Some x → e ∈ errors_of (item x) →
    under (LIdx (k + i)) e ∈ errors_of (validate_items item k l).
Proof.
  intros l. induction l as [|v l IH]; intros k i x e Hx He; [done|].
  cbn [validate_items]. rewrite !errors_of_vap, errors_of_at_loc. simpl.
  destruct i as [|i]; simpl in Hx.
  - injection Hx as ->. rewrite Nat.add_0_r.
    apply elem_of_app. left. by apply list_elem_of_fmap_2.
  - apply elem_of_app. right.
    replace (k + S i)%nat with (S k + i)%nat by lia. by eapply IH.
Qed.

(** X6: a variant needs a text [name] and may leave [options] out,
    which then are the empty list; a dumped variant validates to itself;
    and what is no JSON object is no variant. *)
Theorem Variant_needs_a_name_only :
  (∀ kvs n, assoc "name" kvs = Some (VStr n) → assoc "options" kvs = None →
            validate_Variant (VDict kvs) = Valid {| name := n; options := [] |}) ∧
  (∀ kvs, assoc "name" kvs = None →
          {| loc := [LKey "name"]; type := missing |}
            ∈ errors_of (validate_Variant (VDict kvs))) ∧
  (∀ v, validate_Variant (dump_Variant v) = Valid v) ∧
  (∀ v, (∀ kvs, v ≠ VDict kvs) →
        validate_Variant v = Invalid [{| loc := []; type := model_type |}]).
Proof.
  repeat split.
  - intros kvs n Hname Hopts. cbn [validate_Variant]. by rewrite Hname, Hopts.
  - intros kvs Hname. cbn [validate_Variant]. rewrite Hname, !errors_of_vap.
    simpl. by left.
  - apply validate_dump_Variant.
  - intros v Hv. destruct v; try done. by destruct (Hv kvs).
Qed.

(** X7: an error inside a variant of the body is located by the field,
    the index of the variant and the key: the variant at index [i] with no
    [name] is reported at [variants.i.name] as [missing]. *)
Theorem variant_errors_are_located (raw : raw_record) (l : list value) (i : nat)
    (kvs : list (string * value)) :
  raw !! "variants" = Some (VList l) →
  l !! i = Some (VDict kvs) →
  assoc "name" kvs = None →
  {| loc := [LKey "variants"; LIdx i; LKey "name"]; type := missing |}
    ∈ errors_of (validate_Product raw).
Proof.
  intros Hraw Hi Hname.
  apply (errors_of_field_in_model f_variants).
  unfold validate_field. cbn [field_name]. rewrite Hraw.
  rewrite errors_of_at_loc. cbn [model_fields Field.annotation validate_type validate_list].
  apply (list_elem_of_fmap_2' _ _ {| loc := [LIdx i; LKey "name"]; type := missing |});
    [|done].
  apply (validate_items_errors validate_Variant l 0 i (VDict kvs)
           {| loc := [LKey "name"]; type := missing |} Hi).
  cbn [validate_Variant]. rewrite Hname, !errors_of_vap. simpl. by left.
Qed.

End Variants.

Lemma variant_errors_are_located_witness :
  {| loc := [LKey "variants"; LIdx 1; LKey "name"]; type := missing |}
    ∈ errors_of (@validate_Product no_coercion
                   (<["variants" :=
                        VList [VDict [("name", VStr "Finish")];
                               VDict [("options", VList [VStr "128GB"])]]]>
                      aurora_body)).
Proof.
  apply (@variant_errors_are_located no_coercion _
           [VDict [("name", VStr "Finish")]; VDict [("options", VList [VStr "128GB"])]]
           1 [("options", VList [VStr "128GB"])]); reflexivity.
Defined.

(** ** The User model *)

Section Users.
Context `{LaxMode}.

Lemma validate_attribute_valid (key : string) (t : py_type)
    (dflt : default_of (denote t)) (ge le : option Z) (raw : raw_record) :
  is_valid (validate_attribute key t dflt ge le raw) ↔
  match raw !! key with
  | Some v => well_typed t ge le v
  | None => dflt ≠ required
  end.
Proof.
  unfold validate_attribute. destruct (raw !! key) as [v|].
  - rewrite is_valid_at_loc. apply validate_type_valid.
  - destruct dflt; simpl; split; done.
Qed.

Lemma validate_attribute_missing (key : string) (t : py_type)
    (ge le : option Z) (raw : raw_record) :
  raw !! key = None →
  errors_of (validate_attribute key t required ge le raw)
  = [{| loc := [LKey key]; type := missing |}].
Proof. intros Hnone. unfold validate_attribute. by rewrite Hnone. Qed.

(** X8: a raw user whose [name], [email] and [address] are texts, whose
    [age] is left out, [null] or a JSON integer from 0 to 120, and whose
    [is_active] is left out or a JSON boolean, validates to the user of
    these values, with no age and as active where they are left out (what
    pydantic coerces beyond the JSON types is left open).  A user that
    validated was given the three texts, and its age lies between 0 and
    120; a JSON integer outside these bounds is refused as an age, and a
    required attribute that is left out is reported as [missing]. *)
Theorem validate_User_accepts (raw : raw_record) :
  (∀ n e a,
     raw !! "name" = Some (VStr n) → raw !! "email" = Some (VStr e) →
     raw !! "address" = Some (VStr a) →
     (raw !! "age" = None ∨ raw !! "age" = Some VNone
      ∨ ∃ z, raw !! "age" = Some (VInt z) ∧ (0 ≤ z ≤ 120)%Z) →
     (raw !! "is_active" = None ∨ ∃ b, raw !! "is_active" = Some (VBool b)) →
     validate_User raw
     = Valid {| UserModel.name := n; UserModel.email := e; UserModel.address := a;
                UserModel.age :=
                  match raw !! "age" with Some (VInt z) => Some z | _ => None end;
                UserModel.is_active :=
                  match raw !! "is_active" with Some (VBool b) => b | _ => true end |}) ∧
  (∀ u, validate_User raw = Valid u →
        raw !! "name" = Some (VStr (UserModel.name u)) ∧
        raw !! "email" = Some (VStr (UserModel.email u)) ∧
        raw !! "address" = Some (VStr (UserModel.address u)) ∧
        (∀ a, UserModel.age u = Some a → (0 ≤ a ≤ 120)%Z) ∧
        (raw !! "age" = None → UserModel.age u = None) ∧
        (raw !! "is_active" = None → UserModel.is_active u = true)) ∧
  (∀ z, raw !! "age" = Some (VInt z) → ¬ (0 ≤ z ≤ 120)%Z →
        ¬ ∃ u, validate_User raw = Valid u) ∧
  (∀ key, key ∈ ["name"; "email"; "address"] → raw !! key = None →
          {| loc := [LKey key]; type := missing |} ∈ errors_of (validate_User raw)).
Proof.
  split; [|split; [|split]].
  - intros n e a Hn He Ha Hage Hact.
    unfold validate_User, validate_attribute. rewrite Hn, He, Ha.
    assert (∀ z, (0 ≤ z ≤ 120)%Z →
                 validate_int (Some 0%Z) (Some 120%Z) (VInt z) = Valid z) as Hint.
    { intros z Hz. unfold validate_int. cbn [as_int].
      apply check_bounds_is_valid, check_bounds_int. unfold int_in_bounds. lia. }
    destruct Hage as [->|[->|(z & -> & Hz)]], Hact as [->|[b ->]];
      cbn [validate_type]; rewrite ?(Hint _ Hz); reflexivity.
  - intros u Hu.
    assert (is_valid (validate_User raw)) as Hvalid by (by rewrite Hu).
    unfold validate_User in Hu, Hvalid. rewrite !is_valid_vap in Hvalid.
    destruct Hvalid as (((((_ & V1) & V2) & V3) & V4) & V5).
    destruct (validate_attribute "name" _ _ _ _ raw) as [a1|] eqn:E1; [|done].
    destruct (validate_attribute "email" _ _ _ _ raw) as [a2|] eqn:E2; [|done].
    destruct (validate_attribute "address" _ _ _ _ raw) as [a3|] eqn:E3; [|done].
    destruct (validate_attribute "age" _ _ _ _ raw) as [a4|] eqn:E4; [|done].
    destruct (validate_attribute "is_active" _ _ _ _ raw) as [a5|] eqn:E5; [|done].
    simpl in Hu. injection Hu as <-. simpl.
    unfold validate_attribute in E1, E2, E3, E4, E5.
    assert (∀ key s, match raw !! key with
                     | Some v => at_loc (LKey key) (validate_type TStr None None v)
                     | None => Invalid [under (LKey key) (error_here missing)]
                     end = Valid s → raw !! key = Some (VStr s)) as Htext.
    { intros key s. destruct (raw !! key) as [v|]; [|done].
      intros Hv%at_loc_Valid. destruct v; try done. by injection Hv as ->. }
    split; [by apply Htext|]. split; [by apply Htext|]. split; [by apply Htext|].
    split; [|split].
    + intros z ->. destruct (raw !! "age") as [v|]; [|done].
      by apply at_loc_Valid, validate_type_in_bounds in E4.
    + intros Hnone. rewrite Hnone in E4. by injection E4.
    + intros Hnone. rewrite Hnone in E5. by injection E5.
  - intros z Hage Hz [u Hu].
    assert (is_valid (validate_User raw)) as Hvalid by (by rewrite Hu).
    unfold validate_User in Hvalid. rewrite !is_valid_vap in Hvalid.
    destruct Hvalid as (((((_ & _) & _) & _) & V4) & _).
    apply (validate_attribute_valid "age" (TOptional TInt)) in V4.
    rewrite Hage in V4. destruct V4 as [?|(z' & Hz' & Hb)]; [done|].
    injection Hz' as <-. unfold int_in_bounds in Hb. lia.
  - intros key Hkey Hnone. unfold validate_User. rewrite !errors_of_vap.
    assert (key = "name" ∨ key = "email" ∨ key = "address") as Hcases
      by (set_unfold; tauto).
    destruct Hcases as [ -> | [ -> | -> ] ];
      [ rewrite (validate_attribute_missing "name" TStr) by done
      | rewrite (validate_attribute_missing "email" TStr) by done
      | rewrite (validate_attribute_missing "address" TStr) by done ];
      rewrite !elem_of_app, list_elem_of_singleton; naive_solver.
Qed.

End Users.

(** A user with the three texts and an age of 36 validates as active. *)
Example ada_validates :
  @validate_User no_coercion ada
  = Valid {| UserModel.name := "Ada"; UserModel.email := "ada@example.org";
             UserModel.address := "12 Mill Lane"; UserModel.age := Some 36%Z;
             UserModel.is_active := true |}.
Proof. reflexivity. Qed.

(** An age of 130 and no address: two errors, one for each. *)
Example old_user_errors :
  errors_of (@validate_User no_coercion old_user)
  = [ {| loc := [LKey "address"]; type := missing |};
      {| loc := [LKey "age"]; type := less_than_equal 120 |} ].
Proof. reflexivity. Qed.

(** ** The catalogue under the writers *)

Lemma matches_by_slug_dump (p : Product) (o : ObjectId) (s : string) :
  matches (by_slug s) {| oid := o; members := model_dump p |}
  = bool_decide (slug p = s).
Proof.
  pose proof (model_dump_lookup p f_slug) as Hslug. cbn [field_name] in Hslug.
  unfold matches, by_slug. cbn [forallb members]. rewrite Hslug. simpl.
  by rewrite andb_true_r.
Qed.

Lemma get_product_live (d : Database) (s : string) :
  get_product s (Some d)
  = (match head (find d product_collection (by_slug s)) with
     | Some doc =>
         match _id doc with
         | Some o =>
             Return {| _id := None;
                       body := <["id" := VStr (str_ObjectId o)]> (body doc) |}
         | None =>
             if dict_truthy doc then Raise (KeyError "_id")
             else Raise (HTTPException 404 "Product not found")
         end
     | None => Raise (HTTPException 404 "Product not found")
     end, Some d).
Proof.
  unfold get_product, mbind, handler_bind, find_one.
  destruct (head (find d product_collection (by_slug s))) as [doc|]; [|done].
  unfold dict_truthy. destruct (_id doc); [done|]. by case_match.
Qed.



Lemma singleton_of_short {A : Type} (l : list A) (x : A) :
  (length l ≤ 1)%nat → x ∈ l → l = [x].
Proof.
  destruct l as [|y [|z l]]; simpl; intros Hlen Hx.
  - by apply elem_of_nil in Hx.
  - by apply list_elem_of_singleton in Hx as ->.
  - lia.
Qed.



Section Writers.
Context `{LaxMode} `{Backend}.

Lemma post_api_products_live (raw : raw_record) (d : Database) :
  post_api_products raw (Some d)
  = match validate_Product raw with
    | Invalid errors => (Raise (RequestValidationError (body_errors errors)), Some d)
    | Valid p =>
        match find d product_collection (by_slug (slug p)) with
        | [] =>
            if accepts d product_collection (model_dump p)
            then (Return {["id" := str_ObjectId (next_id d)]},
                  Some (insert_one d product_collection (model_dump p)).2)
            else (Raise StorageError, Some d)
        | _ :: _ => (Raise (HTTPException 400 "Slug already exists"), Some d)
        end
    end.
Proof.
  unfold post_api_products. destruct (validate_Product raw) as [p|es]; [|done].
  destruct (find d product_collection (by_slug (slug p))) eqn:E.
  - by apply create_product_new.
  - apply create_product_duplicate. by rewrite E.
Qed.




End Writers.



(** ** Listing, reading and creating together *)

Section ListAndCreate.
Context `{LaxMode} `{LimitPolicy} `{Backend}.

Lemma apply_limit_all (limit : Z) (docs : list document) :
  (Z.of_nat (length docs) ≤ limit)%Z → (0 < limit)%Z →
  apply_limit limit docs = docs.
Proof.
  intros Hlen Hpos. unfold apply_limit.
  apply Z.ltb_lt in Hpos as ->. apply take_ge. lia.
Qed.

(** X13: a product that was created is in the listing, when the limit
    is above the number of products: the listing is the one from before
    with one more record, at the place where the store put the document,
    and the record is the dumped payload under the identifier that the
    creation answered. *)
Theorem created_product_is_listed
    (raw : raw_record) (d d' : Database) (answer : gmap string string) (limit : Z) :
  post_api_products raw (Some d) = (Return answer, Some d') →
  (Z.of_nat (length (collection d product_collection)) < limit)%Z →
  ∃ old new id p k,
    list_products limit (Some d) = (Return old, Some d) ∧
    list_products limit (Some d')
    = (Return (take k old ++ new :: drop k old)%list, Some d') ∧
    answer = {["id" := id]} ∧
    validate_Product raw = Valid p ∧
    new = {| _id := None; body := <["id" := VStr id]> (model_dump p) |}.
Proof.
  rewrite post_api_products_live. intros Hpost Hlimit.
  destruct (validate_Product raw) as [p|es]; [|done].
  destruct (find d product_collection (by_slug (slug p))); [|done].
  destruct (accepts d product_collection (model_dump p)); [|done].
  assert (d' = (insert_one d product_collection (model_dump p)).2) as ->
    by congruence.
  assert (answer = {["id" := str_ObjectId (next_id d)]}) as -> by congruence.
  exists (normalize <$> (decode <$> collection d product_collection)),
    {| _id := None;
       body := <["id" := VStr (str_ObjectId (next_id d))]> (model_dump p) |},
    (str_ObjectId (next_id d)), p,
    (position d product_collection (model_dump p)).
  rewrite !list_products_live, collection_insert_one.
  pose proof (Permutation_length
                (insert_at_Permutation (position d product_collection (model_dump p))
                   {| oid := next_id d; members := model_dump p |}
                   (collection d product_collection))) as Hlen.
  rewrite !apply_limit_all;
    rewrite ?length_fmap, ?Hlen; simpl; try lia.
  unfold insert_at. by rewrite !fmap_app, !fmap_cons, !fmap_take, !fmap_drop.
Qed.

(** X14: when no two products answer to the same slug, every record of
    a listing that has a text slug is the record that [get_product]
    returns for that slug. *)
Theorem listed_product_is_found_by_slug
    (d : Database) (limit : Z) (docs : list document) (doc : document) (s : string) :
  unique_slugs d →
  list_products limit (Some d) = (Return docs, Some d) →
  doc ∈ docs →
  body doc !! "slug" = Some (VStr s) →
  get_product s (Some d) = (Return doc, Some d).
Proof.
  intros Hunique. rewrite list_products_live. intros [= <-] Hdoc Hslug.
  apply list_elem_of_fmap in Hdoc as (doc0 & -> & Hdoc0).
  apply elem_of_apply_limit, list_elem_of_fmap in Hdoc0 as (st & -> & Hst).
  simpl in Hslug. rewrite lookup_insert_ne in Hslug by done.
  assert (matches (by_slug s) st = true) as Hmatch.
  { unfold matches, by_slug. cbn [forallb]. rewrite Hslug. simpl.
    by rewrite bool_decide_eq_true_2. }
  assert (decode st ∈ find d product_collection (by_slug s)) as Hfound.
  { apply elem_of_find. eauto. }
  rewrite get_product_live.
  by rewrite (singleton_of_short _ _ (Hunique s) Hfound).
Qed.

(** X15: reading never changes the store, and a [POST /api/products]
    that is answered with the validation errors, with "Slug already
    exists" or with the [TypeError] of a missing handle leaves it as it
    was. *)
Theorem store_changes_only_on_success
    (raw : raw_record) (s : string) (limit : Z) (db : option Database) :
  (get_product s db).2 = db ∧
  (list_products limit db).2 = db ∧
  (∀ e, (post_api_products raw db).1 = Raise e → e ≠ StorageError →
        (post_api_products raw db).2 = db).
Proof.
  destruct db as [d|].
  - rewrite get_product_live, list_products_live, post_api_products_live.
    repeat split.
    intros e. destruct (validate_Product raw) as [p|es]; [|done].
    destruct (find d product_collection (by_slug (slug p))); [|done].
    destruct (accepts d product_collection (model_dump p)); [done|].
    simpl. congruence.
  - repeat split.
    intros e. unfold post_api_products. by destruct (validate_Product raw).
Qed.

(** X16: raising the limit only adds records at the end of the listing:
    the listing for a limit above zero is the beginning of the listing for
    every greater limit. *)
Theorem list_products_grows_with_limit
    (d : Database) (small large : Z) (few many : list document) :
  (0 < small ≤ large)%Z →
  list_products small (Some d) = (Return few, Some d) →
  list_products large (Some d) = (Return many, Some d) →
  few = take (Z.to_nat small) many.
Proof.
  intros [Hpos Hle]. rewrite !list_products_live. intros [= <-] [= <-].
  unfold apply_limit.
  rewrite (proj2 (Z.ltb_lt 0 small)), (proj2 (Z.ltb_lt 0 large)) by lia.
  rewrite <- !fmap_take, take_take.
  by replace (Z.to_nat small `min` Z.to_nat large)%nat with (Z.to_nat small) by lia.
Qed.

(** X17: without a database handle the product endpoints do not answer
    404 or 400: [get_product] and [create_product] raise the [TypeError]
    of subscripting [None], while a body that does not validate still gets
    its validation errors. *)
Theorem product_endpoints_without_handle (raw : raw_record) (s : string) :
  get_product s None = (Raise TypeError, None) ∧
  post_api_products raw None
  = (match validate_Product raw with
     | Valid _ => Raise TypeError
     | Invalid errors => Raise (RequestValidationError (body_errors errors))
     end, None).
Proof.
  split; [reflexivity|].
  unfold post_api_products. by destruct (validate_Product raw).
Qed.

End ListAndCreate.

Lemma unique_slugs_aurora : unique_slugs aurora_db.
Proof.
  intros s. unfold aurora_db.
  rewrite (@find_insert_one reliable), matches_by_slug_dump.
  assert (find empty_db product_collection (by_slug s) = []) as -> by reflexivity.
  case_bool_decide; simpl; lia.
Qed.

Lemma created_product_is_listed_witness :
  ∃ old new id p k,
    @list_products no_limit default_limit (Some seeded_db) = (Return old, Some seeded_db) ∧
    @list_products no_limit default_limit (Some aurora_seeded_db)
    = (Return (take k old ++ new :: drop k old)%list, Some aurora_seeded_db) ∧
    ({["id" := str_ObjectId 2%N]} : gmap string string) = {["id" := id]} ∧
    @validate_Product no_coercion aurora_body = Valid p ∧
    new = {| _id := None; body := <["id" := VStr id]> (model_dump p) |}.
Proof.
  apply (@created_product_is_listed no_coercion no_limit reliable aurora_body
           seeded_db aurora_seeded_db {["id" := str_ObjectId 2%N]} default_limit).
  - vm_compute. reflexivity.
  - reflexivity.
Defined.

Lemma listed_product_is_found_by_slug_witness :
  get_product "aurora-mini" (Some aurora_db) = (Return aurora_doc, Some aurora_db).
Proof.
  apply (@listed_product_is_found_by_slug no_limit aurora_db default_limit
           [aurora_doc]).
  - apply unique_slugs_aurora.
  - reflexivity.
  - by left.
  - reflexivity.
Defined.

Lemma list_products_grows_with_limit_witness :
  [specter] = take (Z.to_nat 1) [specter; nebula].
Proof.
  apply (@list_products_grows_with_limit no_limit seeded_db 1 2
           [specter] [specter; nebula]).
  - lia.
  - vm_compute. reflexivity.
  - vm_compute. reflexivity.
Defined.

(** ** The health check *)

Lemma first_characters_prefix (n : nat) (s : string) :
  characters (first_characters n s) = (n `min` characters s)%nat ∧
  ∃ rest, s = first_characters n s +:+ rest.
Proof.
  revert n. induction s as [|c s IH]; intros n.
  - split; [simpl; lia | by exists ""].
  - cbn [first_characters characters]. destruct (is_continuation c) eqn:Hc.
    + destruct (IH n) as [Hlen [rest Hrest]]. cbn [characters]. rewrite Hc.
      split; [done|]. exists rest.
      change (String c s = String c (first_characters n s +:+ rest)).
      by rewrite <- Hrest.
    + destruct n as [|n].
      * split; [simpl; lia|]. by exists (String c s).
      * destruct (IH n) as [Hlen [rest Hrest]]. cbn [characters]. rewrite Hc.
        split; [lia|]. exists rest.
        change (String c s = String c (first_characters n s +:+ rest)).
        by rewrite <- Hrest.
Qed.

(** X18: what [test_database] reports.  The backend always runs; the
    value "Not Available" that the response starts with is never returned;
    the connection counts as "Connected" exactly when there is a handle
    whose name can be read, and the database as "Connected & Working"
    exactly when, besides, the collections could be listed; the state of
    [DATABASE_URL] is reported exactly when there is a handle. *)
Theorem test_database_status (env : option string) (db : option Health.handle) :
  let r := test_database env db in
  Health.backend r = "✅ Running" ∧
  Health.database r ≠ "❌ Not Available" ∧
  (Health.connection_status r = "Connected"
   ↔ ∃ h, db = Some h ∧ ∀ m, Health.name h ≠ Health.failing m) ∧
  (Health.database r = "✅ Connected & Working"
   ↔ ∃ h names, db = Some h ∧ (∀ m, Health.name h ≠ Health.failing m) ∧
       Health.list_collection_names h = inr names) ∧
  (Health.database_url r = None ↔ db = None).
Proof.
  destruct db as [[name_read listing]|]; simpl.
  - destruct name_read as [|n|m], listing as [m'|names]; simpl;
      (split; [done|]); (split; [discriminate|]);
      repeat split; try done; try discriminate;
      try (intros (h & [= <-] & Hname); by destruct (Hname m));
      try (intros (h & l & [= <-] & Hname & Hlist); simpl in *;
           first [discriminate | by destruct (Hname m)]);
      try (intros _; eexists; split; [reflexivity | simpl; discriminate]);
      try (intros _; do 2 eexists; split; [reflexivity|]; split;
           [simpl; discriminate | reflexivity]).
  - repeat split; try done; try discriminate.
    + by intros (h & ? & _).
    + by intros (h & l & ? & _).
Qed.

(** X19: what [test_database] cuts short.  The collections of the
    response are the first ten names that the database lists, and none
    when they could not be listed; of the message of an exception the
    response carries the first 80 characters, a character being what
    Python counts as one and not a byte of its encoding. *)
Theorem test_database_truncates (env : option string) (db : option Health.handle) :
  let r := test_database env db in
  (length (Health.collections r) ≤ 10)%nat ∧
  (∀ h names, db = Some h → (∀ m, Health.name h ≠ Health.failing m) →
              Health.list_collection_names h = inr names →
              Health.collections r = take 10 names) ∧
  ((∀ h names, db = Some h → Health.list_collection_names h ≠ inr names) →
   Health.collections r = []) ∧
  (∀ h m, db = Some h → Health.name h = Health.failing m →
          ∃ text rest, Health.database r = "❌ Error: " +:+ text ∧
                       m = text +:+ rest ∧
                       characters text = (80 `min` characters m)%nat) ∧
  (∀ h m, db = Some h → (∀ m', Health.name h ≠ Health.failing m') →
          Health.list_collection_names h = inl m →
          ∃ text rest, Health.database r = "⚠️ Connected but Error: " +:+ text ∧
                       m = text +:+ rest ∧
                       characters text = (80 `min` characters m)%nat).
Proof.
  destruct db as [[name_read listing]|]; simpl.
  - repeat split.
    + destruct name_read, listing; simpl; try lia; rewrite length_take; lia.
    + intros h names [= <-] Hname Hlist. simpl in *. subst listing.
      destruct name_read as [|n|m]; try done. by destruct (Hname m).
    + intros Hlist. destruct name_read, listing as [m|names]; try done;
        by destruct (Hlist _ names eq_refl).
    + intros h m [= <-] Hname. simpl in *. subst name_read.
      destruct (first_characters_prefix 80 m) as [Hlen [rest Hrest]].
      exists (first_80 m), rest. done.
    + intros h m [= <-] Hname Hlist. simpl in *. subst listing.
      destruct (first_characters_prefix 80 m) as [Hlen [rest Hrest]].
      exists (first_80 m), rest.
      destruct name_read as [|n|m']; try done. by destruct (Hname m').
  - repeat split; try done; simpl; lia.
Qed.

(** Twelve collections: the response names the first ten. *)
Example test_database_twelve :
  Health.collections (test_database (Some "mongodb://localhost") (Some twelve_collections))
  = ["a"; "b"; "c"; "d"; "e"; "f"; "g"; "h"; "i"; "j"].
Proof. reflexivity. Qed.

(** Ninety letters with an accent, two bytes each: the response carries
    eighty of them, not the eighty bytes of the first forty. *)
Example test_database_accents :
  characters (first_80 ninety_accents) = 80%nat ∧
  String.length (first_80 ninety_accents) = 160%nat.
Proof. split; reflexivity. Qed.
